(** * The Gemini / Antigravity protocol adapter (src/utils/geminiAdapter.js)

    A shallow embedding of the adapter's six functions
    ([convertGeminiToAntigravity], [sanitizePart], [sanitizeCandidate],
    [extractGeminiResponse], [convertToGeminiModelList],
    [transformStreamLine]) over a model of the
    JavaScript values they handle, and the properties of the specification
    stated and settled against it.

    Scope of the value model.  The adapter only copies, tests and
    re-serialises JSON data, so values are the JSON values plus [undefined].
    - Numbers are never computed with, only tested for truthiness; they are
      modelled as integers ([Z]).  A number with a fraction, an infinity and
      [NaN] are not values of the model.
    - Strings are sequences of code units below 256 (Rocq's [string]).
    - Objects are ordered property lists.  The property order is the one of
      the language: array-index keys first, in ascending order, then the
      other keys in insertion order.
    - Inherited (prototype) properties are not modelled; none of the keys the
      adapter reads is an inherited one.
    - The configuration module and the identifier generator are not part of
      the adapter; they are parameters of the request translator.
    - [JSON.parse] and [JSON.stringify] are library functions; they are
      parameters of the streaming function, and nothing is assumed of them.
      A data line is covered when the value the library reads from it is a
      value of the model. *)

From Stdlib Require Import List String Ascii ZArith NArith Bool Lia.
From Stdlib Require Import Decimal DecimalString DecimalN.
Import ListNotations.

Local Open Scope string_scope.
Local Open Scope list_scope.

(** * The language *)

(** ** Values *)

Unset Elimination Schemes.
Inductive value : Type :=
| VUndefined
| VNull
| VBool (b : bool)
| VNum (n : Z)
| VStr (s : string)
| VArr (l : list value)
| VObj (o : list (string * value)).
Set Elimination Schemes.

Definition obj : Type := list (string * value).

(** Induction over values, with the hypotheses for the elements of an array
    and for the property values of an object. *)
Definition value_ind (P : value -> Prop)
  (Hundef : P VUndefined) (Hnull : P VNull)
  (Hbool : forall b, P (VBool b)) (Hnum : forall n, P (VNum n))
  (Hstr : forall s, P (VStr s))
  (Harr : forall l, Forall P l -> P (VArr l))
  (Hobj : forall o, Forall (fun kv => P (snd kv)) o -> P (VObj o)) :
  forall v, P v :=
  fix go (v : value) : P v :=
    match v with
    | VUndefined => Hundef
    | VNull => Hnull
    | VBool b => Hbool b
    | VNum n => Hnum n
    | VStr s => Hstr s
    | VArr l =>
        Harr l ((fix elems (l : list value) : Forall P l :=
                   match l with
                   | [] => Forall_nil _
                   | x :: l' => Forall_cons x (go x) (elems l')
                   end) l)
    | VObj o =>
        Hobj o ((fix props (o : list (string * value))
                   : Forall (fun kv => P (snd kv)) o :=
                   match o with
                   | [] => Forall_nil _
                   | kv :: o' =>
                       Forall_cons (P := fun kv => P (snd kv)) kv
                         (go (snd kv)) (props o')
                   end) o)
    end.

(** ** Errors

    A function either returns or throws.  [TypeError] is what reading a
    property of [null] or [undefined] throws, [SyntaxError] what [JSON.parse]
    throws, [RangeError] what a call throws that runs out of stack. *)

Inductive error : Type := TypeError | SyntaxError | RangeError.

Inductive result (A : Type) : Type :=
| Ok (a : A)
| Throw (e : error).
Arguments Ok {A} a.
Arguments Throw {A} e.

Definition bind {A B : Type} (m : result A) (f : A -> result B) : result B :=
  match m with
  | Ok a => f a
  | Throw e => Throw e
  end.

Notation "x <- m ;; k" := (bind m (fun x => k))
  (at level 61, m at next level, right associativity).

(** [try { body } catch (e) { handler }] *)
Definition try_catch {A : Type} (body : result A) (handler : error -> result A)
  : result A :=
  match body with
  | Ok a => Ok a
  | Throw e => handler e
  end.

(** ** Primitive operations of the language *)

(** Truthiness: [ToBoolean]. *)
Definition truthy (v : value) : bool :=
  match v with
  | VUndefined | VNull => false
  | VBool b => b
  | VNum n => negb (n =? 0)%Z
  | VStr s => negb (s =? "")
  | VArr _ | VObj _ => true
  end.

Inductive jstype : Type :=
  TyUndefined | TyObject | TyBoolean | TyNumber | TyString.

(** The [typeof] operator; [typeof null] is ["object"]. *)
Definition typeof (v : value) : jstype :=
  match v with
  | VUndefined => TyUndefined
  | VNull | VArr _ | VObj _ => TyObject
  | VBool _ => TyBoolean
  | VNum _ => TyNumber
  | VStr _ => TyString
  end.

Definition is_object_type (v : value) : bool :=
  match typeof v with TyObject => true | _ => false end.

Definition isArray (v : value) : bool :=
  match v with VArr _ => true | _ => false end.

Definition is_undefined (v : value) : bool :=
  match v with VUndefined => true | _ => false end.

Definition nullish (v : value) : bool :=
  match v with VUndefined | VNull => true | _ => false end.

(** [a || b] and [a ?? b] on values. *)
Definition js_or (a b : value) : value := if truthy a then a else b.
Definition js_coalesce (a b : value) : value := if nullish a then b else a.

(** *** Property keys and their order *)

Definition string_of_N (n : N) : string :=
  NilEmpty.string_of_uint (N.to_uint n).

(** A key is an array index when it is the canonical decimal numeral of an
    integer below 2^32 - 1. *)
Definition key_index (k : string) : option N :=
  match NilEmpty.uint_of_string k with
  | Some d =>
      if uint_beq (unorm d) d && (N.of_uint d <? 4294967295)%N
      then Some (N.of_uint d) else None
  | None => None
  end.

(** [key_le k k']: a property named [k'] may come after one named [k]. *)
Definition key_le (k k' : string) : bool :=
  match key_index k, key_index k' with
  | Some a, Some b => (a <=? b)%N
  | Some _, None => true
  | None, Some _ => false
  | None, None => true
  end.

(** *** Objects as ordered property lists *)

(** Reading a property list: when a key is repeated the later entry wins, as
    in an object literal. *)
Fixpoint obj_lookup (k : string) (o : obj) : option value :=
  match o with
  | [] => None
  | kv :: o' =>
      match obj_lookup k o' with
      | Some w => Some w
      | None => if k =? fst kv then Some (snd kv) else None
      end
  end.

Definition obj_mem (k : string) (o : obj) : bool :=
  existsb (fun kv => k =? fst kv) o.

Definition obj_replace (k : string) (v : value) (o : obj) : obj :=
  map (fun kv => if k =? fst kv then (k, v) else kv) o.

Fixpoint obj_insert (k : string) (v : value) (o : obj) : obj :=
  match o with
  | [] => [(k, v)]
  | kv :: o' =>
      if key_le (fst kv) k then kv :: obj_insert k v o'
      else (k, v) :: kv :: o'
  end.

(** Defining a property: an existing one keeps its place and takes the new
    value, a new one is placed by the property order. *)
Definition obj_set (k : string) (v : value) (o : obj) : obj :=
  if obj_mem k o then obj_replace k v o else obj_insert k v o.

Definition obj_set_all (props : obj) (target : obj) : obj :=
  fold_left (fun acc kv => obj_set (fst kv) (snd kv) acc) props target.

(** The own property [k] of an object, [undefined] when there is none. *)
Definition obj_get (o : obj) (k : string) : value :=
  match obj_lookup k o with
  | Some v => v
  | None => VUndefined
  end.

Fixpoint indexed_from (i : N) (l : list value) : obj :=
  match l with
  | [] => []
  | x :: l' => (string_of_N i, x) :: indexed_from (N.succ i) l'
  end.

Fixpoint chars_of (s : string) : list value :=
  match s with
  | EmptyString => []
  | String c s' => VStr (String c EmptyString) :: chars_of s'
  end.

(** The own enumerable properties of a value, in property order: what a
    spread or a rest pattern copies. *)
Definition ownEnumerable (v : value) : obj :=
  match v with
  | VObj o => o
  | VArr l => indexed_from 0%N l
  | VStr s => indexed_from 0%N (chars_of s)
  | _ => []
  end.

(** [{ ...target, ...src }]: [CopyDataProperties] onto the properties so far.
    An object literal whose keys are distinct and none an array index is
    written as the list of its properties. *)
Definition spread (target : obj) (src : value) : obj :=
  obj_set_all (ownEnumerable src) target.

(** The rest of an object pattern, [{ k1, ..., kn, ...rest } = src]. *)
Definition rest_props (excluded : list string) (src : value) : obj :=
  obj_set_all
    (filter (fun kv => negb (existsb (String.eqb (fst kv)) excluded))
       (ownEnumerable src))
    [].

(** The value of [v.k] for a [v] that is neither [null] nor [undefined]. *)
Definition prop (v : value) (k : string) : value :=
  match v with
  | VObj o => obj_get o k
  | VArr l =>
      match key_index k with
      | Some i => nth (N.to_nat i) l VUndefined
      | None =>
          if k =? "length" then VNum (Z.of_nat (List.length l))
          else VUndefined
      end
  | VStr s =>
      match key_index k with
      | Some i => nth (N.to_nat i) (chars_of s) VUndefined
      | None =>
          if k =? "length" then VNum (Z.of_nat (String.length s))
          else VUndefined
      end
  | _ => VUndefined
  end.

(** The member access [v.k]: a [TypeError] on [null] and [undefined]. *)
Definition getProp (v : value) (k : string) : result value :=
  if nullish v then Throw TypeError else Ok (prop v k).

(** [arr.map((x, idx) => f(x, idx))], the index counted from [i]. *)
Fixpoint mapi_from {A : Type} (f : value -> Z -> result A) (i : Z)
  (l : list value) : result (list A) :=
  match l with
  | [] => Ok []
  | x :: l' =>
      y <- f x i ;;
      ys <- mapi_from f (i + 1)%Z l' ;;
      Ok (y :: ys)
  end.

(** *** Strings *)

(** The rest of [s] after the prefix [p], when [s] starts with [p]. *)
Fixpoint strip_prefix (p s : string) : option string :=
  match p with
  | EmptyString => Some s
  | String a p' =>
      match s with
      | String b s' => if (a =? b)%char then strip_prefix p' s' else None
      | EmptyString => None
      end
  end.

(** [s.startsWith(p)] *)
Definition startsWith (s p : string) : bool :=
  match strip_prefix p s with
  | Some _ => true
  | None => false
  end.

(** [s.slice(n)] for a non-negative [n] *)
Fixpoint slice (n : nat) (s : string) : string :=
  match n, s with
  | S n', String _ s' => slice n' s'
  | _, _ => s
  end.

(** *** Text

    [JSON.parse] and [JSON.stringify] belong to the library of the language,
    not to the adapter: the streaming function takes them as parameters.
    What the adapter itself does with text is the prefix test, the slice and
    the template literal. *)

(** A value inside a template literal: [`${x}`], for [x] a string or
    [undefined]. *)
Definition template_text (x : option string) : string :=
  match x with
  | Some s => s
  | None => "undefined"
  end.

Definition is_digit (c : ascii) : bool :=
  (48 <=? N_of_ascii c)%N && (N_of_ascii c <=? 57)%N.

(** * The adapter *)

(** ** The request side of the adapter *)

Section RequestTranslator.

(** The default export of [config/config.js], read at call time. *)
Variable config : value.

(** [generateRequestId()] of [idGenerator.js]: a supplier of identifiers,
    with the state it draws them from. *)
Variable IdState : Type.
Variable generateRequestId : IdState -> value * IdState.

(** [a ?? b], [b] evaluated only when [a] is [null] or [undefined]. *)
Definition coalesce (a : value) (b : result value) : result value :=
  if nullish a then b else Ok a.

(** [config.defaults.<name>] *)
Definition config_default (name : string) : result value :=
  defaults <- getProp config "defaults" ;;
  getProp defaults name.

(** [generationConfig.<field> ?? fallback] *)
Definition resolve_field (generationConfig : value) (field : string)
  (fallback : result value) : result value :=
  given <- getProp generationConfig field ;;
  coalesce given fallback.

(** [convertGeminiToAntigravity(model, geminiRequest, token)] *)
Definition convertGeminiToAntigravity (model geminiRequest token : value)
  (ids : IdState) : result (value * IdState) :=
  (* const { contents = [], generationConfig = {}, systemInstruction,
             safetySettings, ...rest } = geminiRequest; *)
  given_contents <- getProp geminiRequest "contents" ;;
  let contents :=
    if is_undefined given_contents then VArr [] else given_contents in
  given_config <- getProp geminiRequest "generationConfig" ;;
  let generationConfig :=
    if is_undefined given_config then VObj [] else given_config in
  systemInstruction <- getProp geminiRequest "systemInstruction" ;;
  safetySettings <- getProp geminiRequest "safetySettings" ;;
  let rest :=
    rest_props
      ["contents"; "generationConfig"; "systemInstruction";
       "safetySettings"] geminiRequest in
  (* mergedGenerationConfig *)
  topP <- resolve_field generationConfig "topP" (config_default "top_p") ;;
  topK <- resolve_field generationConfig "topK" (config_default "top_k") ;;
  temperature <-
    resolve_field generationConfig "temperature"
      (config_default "temperature") ;;
  maxOutputTokens <-
    resolve_field generationConfig "maxOutputTokens"
      (config_default "max_tokens") ;;
  candidateCount <-
    resolve_field generationConfig "candidateCount" (Ok (VNum 1)) ;;
  let mergedGenerationConfig :=
    spread
      [("topP", topP); ("topK", topK); ("temperature", temperature);
       ("maxOutputTokens", maxOutputTokens);
       ("candidateCount", candidateCount)]
      generationConfig in
  (* finalSystemInstruction *)
  finalSystemInstruction <-
    (if truthy systemInstruction then
       given_role <- getProp systemInstruction "role" ;;
       given_parts <- getProp systemInstruction "parts" ;;
       parts <-
         (if truthy given_parts then Ok given_parts
          else
            text <- getProp config "systemInstruction" ;;
            Ok (VArr [VObj [("text", js_or text (VStr ""))]])) ;;
       Ok (VObj [("role", js_or given_role (VStr "user"));
                 ("parts", parts)])
     else
       text <- getProp config "systemInstruction" ;;
       if truthy text then
         Ok (VObj [("role", VStr "user");
                   ("parts", VArr [VObj [("text", text)]])])
       else
         Ok (VObj [("role", VStr "user");
                   ("parts", VArr [VObj [("text", VStr "")]])])) ;;
  (* the returned object literal, its fields evaluated in order *)
  project <- getProp token "projectId" ;;
  let (requestId, ids') := generateRequestId ids in
  sessionId <- getProp token "sessionId" ;;
  Ok (VObj
        [("project", project);
         ("requestId", requestId);
         ("request",
          VObj (spread
                  [("contents", contents);
                   ("systemInstruction", finalSystemInstruction);
                   ("generationConfig", VObj mergedGenerationConfig);
                   ("sessionId", sessionId)]
                  (VObj rest)));
         ("model", model);
         ("userAgent", VStr "antigravity")],
      ids').

End RequestTranslator.

(** ** The response side of the adapter *)

(** [sanitizePart(part)] *)
Definition sanitizePart (part : value) : value :=
  if negb (truthy part) || negb (is_object_type part) then part
  else VObj (rest_props ["thoughtSignature"] part).

(** [sanitizeCandidate(candidate, index)] *)
Definition sanitizeCandidate (candidate : value) (index : value)
  : result value :=
  if negb (truthy candidate) || negb (is_object_type candidate)
  then Ok candidate
  else
    let result := spread [] candidate in
    let result :=
      if is_undefined (obj_get result "index")
      then obj_set "index" index result
      else result in
    let content := obj_get result "content" in
    if truthy content then
      parts <- getProp content "parts" ;;
      match parts with
      | VArr ps =>
          Ok (VObj (obj_set "content"
                      (VObj (obj_set "parts" (VArr (map sanitizePart ps))
                               (spread [] content)))
                      result))
      | _ => Ok (VObj result)
      end
    else Ok (VObj result).

(** [candidates.map((candidate, idx) => sanitizeCandidate(candidate, idx))] *)
Definition sanitizeCandidates (cs : list value) : result (list value) :=
  mapi_from (fun c idx => sanitizeCandidate c (VNum idx)) 0%Z cs.

(** [extractGeminiResponse(antigravityResponse)] *)
Definition extractGeminiResponse (antigravityResponse : value)
  : result value :=
  (* [antigravityResponse && antigravityResponse.response] *)
  test <-
    (if truthy antigravityResponse
     then getProp antigravityResponse "response"
     else Ok antigravityResponse) ;;
  response <-
    (if truthy test then getProp antigravityResponse "response"
     else Ok antigravityResponse) ;;
  if negb (truthy response) then Ok response
  else
    candidates <- getProp response "candidates" ;;
    match candidates with
    | VArr cs =>
        cs' <- sanitizeCandidates cs ;;
        Ok (VObj (obj_set "candidates" (VArr cs') (spread [] response)))
    | _ => Ok response
    end.

(** ** The model catalogue *)

(** [Object.keys(v)]: the keys of the own enumerable properties, a
    [TypeError] on [null] and [undefined]. *)
Definition Object_keys (v : value) : result (list string) :=
  if nullish v then Throw TypeError else Ok (map fst (ownEnumerable v)).

(** The entry that the arrow function [id => ({ name: ..., ... })] builds. *)
Definition model_entry (id : string) : value :=
  VObj [("name", VStr ("models/" ++ id)%string);
        ("version", VStr "001");
        ("displayName", VStr id);
        ("description", VStr ("Model " ++ id)%string);
        ("inputTokenLimit", VNum 1048576);
        ("outputTokenLimit", VNum 8192);
        ("supportedGenerationMethods",
         VArr [VStr "generateContent"; VStr "streamGenerateContent"])].

(** [convertToGeminiModelList(internalModels)] *)
Definition convertToGeminiModelList (internalModels : value)
  : result value :=
  models <- getProp internalModels "models" ;;
  modelIds <- Object_keys (js_or models (VObj [])) ;;
  Ok (VObj [("models", VArr (map model_entry modelIds))]).

(** ** The streaming side of the adapter *)

Section StreamTransform.

(** [JSON.parse(text)] returns the value it reads or throws;
    [JSON.stringify(v)] returns the text it prints, or [undefined], or
    throws.  Nothing is assumed of either. *)
Variable JSON_parse : string -> result value.
Variable JSON_stringify : value -> result (option string).

(** [transformStreamLine(line)] *)
Definition transformStreamLine (line : string) : result string :=
  if negb (startsWith line "data: ") then Ok line
  else
    try_catch
      (data <- JSON_parse (slice 6 line) ;;
       (* data.response ? data.response : data *)
       test <- getProp data "response" ;;
       geminiData <-
         (if truthy test then getProp data "response" else Ok data) ;;
       (* geminiData.candidates && Array.isArray(geminiData.candidates) *)
       candidates <- getProp geminiData "candidates" ;;
       geminiData <-
         (if truthy candidates then
            match candidates with
            | VArr cs =>
                cs' <- sanitizeCandidates cs ;;
                Ok (VObj (obj_set "candidates" (VArr cs')
                            (spread [] geminiData)))
            | _ => Ok geminiData
            end
          else Ok geminiData) ;;
       (* `data: ${JSON.stringify(geminiData)}` *)
       text <- JSON_stringify geminiData ;;
       Ok ("data: " ++ template_text text)%string)
      (fun _ => Ok line).

End StreamTransform.

(** * Notions for the statements *)

(** ** Property lists in property order *)

Definition keys (o : obj) : list string := map fst o.

Fixpoint ordered_keys (ks : list string) : Prop :=
  match ks with
  | [] => True
  | k :: ks' =>
      ~ In k ks' /\ Forall (fun k' => key_le k k' = true) ks' /\
      ordered_keys ks'
  end.

(** A property list is canonical when it is the property list of an object:
    no key twice, and the keys in property order. *)
Definition canonical (o : obj) : Prop := ordered_keys (keys o).

Definition not_excluded (excluded : list string) (k : string) : bool :=
  negb (existsb (String.eqb k) excluded).

(** ** What the sanitizers compute *)

(** A value that is an object for [typeof] and is not [null]. *)
Definition is_object (v : value) : bool := truthy v && is_object_type v.

(** The properties of the candidate after the two steps on [index] and
    [content]: what [sanitizeCandidate] returns for an object. *)
Definition with_index (index : value) (o : obj) : obj :=
  if is_undefined (obj_get o "index") then obj_set "index" index o else o.

Definition with_parts (o : obj) : obj :=
  match prop (obj_get o "content") "parts" with
  | VArr ps =>
      if truthy (obj_get o "content") then
        obj_set "content"
          (VObj (obj_set "parts" (VArr (map sanitizePart ps))
                   (spread [] (obj_get o "content")))) o
      else o
  | _ => o
  end.

(** The unwrapped payload as the code finds it: [r.response] when both [r]
    and [r.response] are truthy, [r] itself otherwise. *)
Definition unwrap (r : value) : value :=
  if truthy r && truthy (prop r "response") then prop r "response" else r.

(** The unwrapped payload by key presence, as the specification words it:
    [r.response] when [r] has a [response] property, [r] itself otherwise. *)
Definition unwrap_by_key_presence (r : value) : value :=
  if obj_mem "response" (ownEnumerable r) then prop r "response" else r.

(** ** What the request translator computes, field by field *)

(** The incoming [generationConfig] after the default [= {}]. *)
Definition incoming_config (geminiRequest : value) : value :=
  if is_undefined (prop geminiRequest "generationConfig") then VObj []
  else prop geminiRequest "generationConfig".

(** The configured default of each named field of the merged configuration;
    the fallback of [candidateCount] is the literal 1. *)
Definition field_default (config : value) (field : string) : value :=
  if field =? "topP" then prop (prop config "defaults") "top_p"
  else if field =? "topK" then prop (prop config "defaults") "top_k"
  else if field =? "temperature"
       then prop (prop config "defaults") "temperature"
  else if field =? "maxOutputTokens"
       then prop (prop config "defaults") "max_tokens"
  else VNum 1.

Definition named_fields : list string :=
  ["topP"; "topK"; "temperature"; "maxOutputTokens"; "candidateCount"].

Definition merged_config (config generationConfig : value) : obj :=
  spread
    (map (fun field =>
            (field,
             js_coalesce (prop generationConfig field)
               (field_default config field)))
       named_fields)
    generationConfig.

Definition default_part (text : value) : value :=
  VArr [VObj [("text", text)]].

Definition final_instruction (config systemInstruction : value) : value :=
  if truthy systemInstruction then
    VObj [("role", js_or (prop systemInstruction "role") (VStr "user"));
          ("parts",
           if truthy (prop systemInstruction "parts")
           then prop systemInstruction "parts"
           else default_part
                  (js_or (prop config "systemInstruction") (VStr "")))]
  else if truthy (prop config "systemInstruction") then
    VObj [("role", VStr "user");
          ("parts", default_part (prop config "systemInstruction"))]
  else
    VObj [("role", VStr "user"); ("parts", default_part (VStr ""))].

Definition pattern_keys : list string :=
  ["contents"; "generationConfig"; "systemInstruction"; "safetySettings"].

Definition inner_request (config geminiRequest token : value) : obj :=
  spread
    [("contents",
      if is_undefined (prop geminiRequest "contents") then VArr []
      else prop geminiRequest "contents");
     ("systemInstruction",
      final_instruction config (prop geminiRequest "systemInstruction"));
     ("generationConfig",
      VObj (merged_config config (incoming_config geminiRequest)));
     ("sessionId", prop token "sessionId")]
    (VObj (rest_props pattern_keys geminiRequest)).

Definition internal_request (config requestId model geminiRequest token
  : value) : value :=
  VObj [("project", prop token "projectId");
        ("requestId", requestId);
        ("request", VObj (inner_request config geminiRequest token));
        ("model", model);
        ("userAgent", VStr "antigravity")].

(** The inputs on which every member access of the translator is defined:
    the request and the token are objects or primitives other than [null]
    and [undefined], the request's [generationConfig] is not [null], and the
    configuration module has its [defaults]. *)
Definition accepted (config geminiRequest token : value) : Prop :=
  nullish geminiRequest = false /\
  nullish token = false /\
  prop geminiRequest "generationConfig" <> VNull /\
  nullish config = false /\
  nullish (prop config "defaults") = false.

(** ** Values in the shape of JSON data

    No [undefined] inside, and every object with its properties in property
    order. *)

Unset Elimination Schemes.
Inductive json_wf : value -> Prop :=
| wf_null : json_wf VNull
| wf_bool (b : bool) : json_wf (VBool b)
| wf_num (n : Z) : json_wf (VNum n)
| wf_str (s : string) : json_wf (VStr s)
| wf_arr (l : list value) : Forall json_wf l -> json_wf (VArr l)
| wf_obj (o : obj) :
    canonical o -> Forall (fun kv => json_wf (snd kv)) o ->
    json_wf (VObj o).
Set Elimination Schemes.

(** The size of a value. *)
Fixpoint size (v : value) : nat :=
  match v with
  | VArr l => S (fold_right (fun x n => S (size x + n)) 0 l)
  | VObj o => S (fold_right (fun kv n => S (size (snd kv) + n)) 0 o)
  | _ => 1
  end.

Fixpoint all_digits (s : string) : bool :=
  match s with
  | EmptyString => true
  | String c s' => is_digit c && all_digits s'
  end.

(** The property values of an object are well formed. *)
Definition values_wf (o : obj) : Prop :=
  Forall (fun kv => json_wf (snd kv)) o.

(** ** The specification's words, where they differ from the code *)

(** The system instruction by presence, as the specification words it: the
    request "supplies" a [systemInstruction] when it has the property, and
    its [role] and [parts] are used "if present". *)
Definition final_instruction_by_presence (config geminiRequest : value)
  : value :=
  let given := prop geminiRequest "systemInstruction" in
  let configured := prop config "systemInstruction" in
  if obj_mem "systemInstruction" (ownEnumerable geminiRequest) then
    VObj [("role",
           if obj_mem "role" (ownEnumerable given) then prop given "role"
           else VStr "user");
          ("parts",
           if obj_mem "parts" (ownEnumerable given) then prop given "parts"
           else default_part (js_or configured (VStr "")))]
  else if truthy configured then
    VObj [("role", VStr "user"); ("parts", default_part configured)]
  else
    VObj [("role", VStr "user"); ("parts", default_part (VStr ""))].


(** ** What the request translator reads

    The member accesses that decide whether the translator returns. *)

(** The translator reads [config.defaults] when the incoming
    [generationConfig] leaves one of the four configured fields [null] or
    [undefined]. *)
Definition reads_defaults (geminiRequest : value) : bool :=
  existsb (fun field => nullish (prop (incoming_config geminiRequest) field))
    ["topP"; "topK"; "temperature"; "maxOutputTokens"].

(** It reads [config.systemInstruction] unless the request brings a truthy
    [systemInstruction] with truthy [parts]. *)
Definition reads_instruction (geminiRequest : value) : bool :=
  negb (truthy (prop geminiRequest "systemInstruction") &&
        truthy (prop (prop geminiRequest "systemInstruction") "parts")).

(** The calls on which no member access of the translator is on [null] or
    [undefined]. *)
Definition translatable (config geminiRequest token : value) : bool :=
  negb (nullish geminiRequest) &&
  negb (nullish (incoming_config geminiRequest)) &&
  (if reads_defaults geminiRequest
   then negb (nullish config) && negb (nullish (prop config "defaults"))
   else true) &&
  (if reads_instruction geminiRequest then negb (nullish config) else true) &&
  negb (nullish token).

(** ** The keys of a model registry *)

(** The keys that [convertToGeminiModelList] enumerates: those of
    [internalModels.models || {}]. *)
Definition registry_ids (internalModels : value) : list string :=
  map fst (ownEnumerable (js_or (prop internalModels "models") (VObj []))).

(** The field names of a catalogue entry, in order. *)
Definition entry_keys : list string :=
  ["name"; "version"; "displayName"; "description"; "inputTokenLimit";
   "outputTokenLimit"; "supportedGenerationMethods"].

(** * Examples *)

(** The candidate of the specification's example and its sanitized form. *)
Definition example_candidate : value :=
  VObj [("content",
         VObj [("parts",
                VArr [VObj [("text", VStr "a");
                            ("thoughtSignature", VStr "x")]])])].

Definition example_sanitized : value :=
  VObj [("content", VObj [("parts", VArr [VObj [("text", VStr "a")]])]);
        ("index", VNum 2)].

(** An envelope whose [response] is [null]. *)
Definition null_envelope : value := VObj [("response", VNull)].

(** A configuration, an identifier supply and a token for the examples. *)
Definition example_config : value :=
  VObj [("defaults",
         VObj [("top_p", VNum 1); ("top_k", VNum 50);
               ("temperature", VNum 1); ("max_tokens", VNum 8096)]);
        ("systemInstruction", VStr "")].

Definition counter_id (n : nat) : value * nat :=
  (VStr (String.append "req-" (string_of_N (N.of_nat n))), S n).

Definition example_token : value :=
  VObj [("projectId", VStr "p"); ("sessionId", VStr "s")].

(** A request with a partial [generationConfig] (one field supplied, one
    explicitly [null]), a [safetySettings] and one field unknown to the
    translator. *)
Definition example_request : value :=
  VObj [("contents", VArr [VObj [("role", VStr "user")]]);
        ("generationConfig",
         VObj [("temperature", VNum 0); ("topK", VNull)]);
        ("safetySettings", VArr [VObj [("category", VStr "c")]]);
        ("tools", VArr [])].

(** Text with the single quotes read as double quotes, to write JSON
    examples. *)
Definition dquote : ascii := "034"%char.

Fixpoint q (s : string) : string :=
  match s with
  | EmptyString => EmptyString
  | String c s' => String (if (c =? "'")%char then dquote else c) (q s')
  end.

(** The data lines of the specification's examples. *)
Definition spec_stream_line : string :=
  q "data: {'response':{'candidates':[{'content':{'parts':[{'text':'hi','thoughtSignature':'z'}]}}]}}".

Definition spec_stream_result : string :=
  q "data: {'candidates':[{'content':{'parts':[{'text':'hi'}]},'index':0}]}".

(** A data line whose payload is [null], with white space before it. *)
Definition null_line : string := "data:  null".

(** A data line whose payload is an envelope inside an envelope. *)
Definition nested_line : string :=
  q "data: {'response':{'response':{'candidates':[]}}}".

(** The payload of the specification's data line and what is extracted
    from it. *)
Definition spec_stream_payload : value :=
  VObj [("response",
         VObj [("candidates",
                VArr [VObj [("content",
                             VObj [("parts",
                                    VArr [VObj [("text", VStr "hi");
                                                ("thoughtSignature",
                                                 VStr "z")]])])]])])].

Definition spec_stream_extracted : value :=
  VObj [("candidates",
         VArr [VObj [("content",
                      VObj [("parts", VArr [VObj [("text", VStr "hi")]])]);
                     ("index", VNum 0)]])].

(** Two data lines with the same payload, one with white space and with a
    key given twice. *)
Definition spaced_line : string :=
  q "data:  { 'candidates' : [ ] , 'x' : 1 , 'x' : 2 }".

Definition dense_line : string := q "data: {'candidates':[],'x':2}".

(** Equality of values, to look a value up in a table. *)
Fixpoint value_eqb (a b : value) : bool :=
  match a, b with
  | VUndefined, VUndefined => true
  | VNull, VNull => true
  | VBool x, VBool y => Bool.eqb x y
  | VNum x, VNum y => (x =? y)%Z
  | VStr x, VStr y => (x =? y)%string
  | VArr l, VArr m =>
      (fix all2 (l m : list value) : bool :=
         match l, m with
         | [], [] => true
         | x :: l', y :: m' => value_eqb x y && all2 l' m'
         | _, _ => false
         end) l m
  | VObj o, VObj p =>
      (fix all2 (o p : obj) : bool :=
         match o, p with
         | [], [] => true
         | kx :: o', ky :: p' =>
             (fst kx =? fst ky)%string && value_eqb (snd kx) (snd ky) &&
             all2 o' p'
         | _, _ => false
         end) o p
  | _, _ => false
  end.

(** The library on the examples.  The examples need [JSON.parse] at a few
    texts and [JSON.stringify] at a few values only, and the two tables give
    what the library does there.  Outside the tables the two functions below
    are not the library's: [example_parse] throws, which is also what the
    library does on the malformed texts ["{not json"] and ["[DONE]"] of the
    examples, and [example_stringify] throws. *)
Definition example_texts : list (string * value) :=
  [(slice 6 spec_stream_line, spec_stream_payload);
   (slice 6 spec_stream_result, spec_stream_extracted);
   (" null", VNull);
   (slice 6 nested_line,
    VObj [("response",
           VObj [("response", VObj [("candidates", VArr [])])])]);
   (q "{'response':{'candidates':[]}}",
    VObj [("response", VObj [("candidates", VArr [])])]);
   (q "{'candidates':[]}", VObj [("candidates", VArr [])]);
   (slice 6 spaced_line, VObj [("candidates", VArr []); ("x", VNum 2)]);
   (slice 6 dense_line, VObj [("candidates", VArr []); ("x", VNum 2)])].

Definition example_prints : list (value * string) :=
  [(VNull, "null");
   (spec_stream_extracted, slice 6 spec_stream_result);
   (VObj [("response", VObj [("candidates", VArr [])])],
    q "{'response':{'candidates':[]}}");
   (VObj [("candidates", VArr [])], q "{'candidates':[]}");
   (VObj [("candidates", VArr []); ("x", VNum 2)], slice 6 dense_line)].

Definition example_parse (text : string) : result value :=
  match find (fun p => (fst p =? text)%string) example_texts with
  | Some p => Ok (snd p)
  | None => Throw SyntaxError
  end.

Definition example_stringify (v : value) : result (option string) :=
  match find (fun p => value_eqb (fst p) v) example_prints with
  | Some p => Ok (Some (snd p))
  | None => Throw RangeError
  end.

(** A request whose [systemInstruction] has an empty [role], and one whose
    [systemInstruction] has [parts: null]. *)
Definition empty_role_request : value :=
  VObj [("systemInstruction",
         VObj [("role", VStr "");
               ("parts", VArr [VObj [("text", VStr "x")]])])].

Definition null_parts_request : value :=
  VObj [("systemInstruction",
         VObj [("role", VStr "model"); ("parts", VNull)])].


(** A registry with two models, and one whose [models] is missing. *)
Definition example_registry : value :=
  VObj [("models",
         VObj [("gemini-2.5-pro", VObj [("quota", VNum 3)]);
               ("claude-sonnet", VNull)])].

(** * Facts and theorems *)

(** ** Facts about property lists *)

Lemma obj_mem_In (k : string) (o : obj) :
  obj_mem k o = true <-> In k (keys o).
Proof.
  unfold obj_mem, keys. rewrite existsb_exists, in_map_iff. split.
  - intros [kv [Hin Heq]]. apply String.eqb_eq in Heq. exists kv. auto.
  - intros [kv [Heq Hin]]. exists kv. split; [assumption|].
    apply String.eqb_eq. auto.
Qed.

Lemma obj_mem_false (k : string) (o : obj) :
  obj_mem k o = false <-> ~ In k (keys o).
Proof.
  rewrite <- obj_mem_In. destruct (obj_mem k o); split; congruence.
Qed.

Lemma obj_lookup_None (k : string) (o : obj) :
  obj_lookup k o = None <-> obj_mem k o = false.
Proof.
  induction o as [|[k' v] o IH]; simpl; [tauto|].
  destruct (obj_lookup k o) eqn:E.
  - split; [discriminate|]. intros H. apply orb_false_elim in H.
    destruct H as [_ H]. apply IH in H. discriminate.
  - destruct IH as [IH _]. rewrite (IH eq_refl), orb_false_r.
    destruct (k =? k'); split; congruence.
Qed.

Lemma keys_replace (k : string) (v : value) (o : obj) :
  keys (obj_replace k v o) = keys o.
Proof.
  unfold keys, obj_replace. rewrite map_map. apply map_ext_in.
  intros [k' v'] _. simpl. destruct (k =? k') eqn:E; [|reflexivity].
  apply String.eqb_eq in E. subst. reflexivity.
Qed.

Lemma obj_replace_cons (k : string) (v : value) (kv : string * value)
  (o : obj) :
  obj_replace k v (kv :: o) =
  (if k =? fst kv then (k, v) else kv) :: obj_replace k v o.
Proof. reflexivity. Qed.

Lemma obj_lookup_replace_eq (k : string) (v : value) (o : obj) :
  obj_mem k o = true -> obj_lookup k (obj_replace k v o) = Some v.
Proof.
  induction o as [|kv o IH]; [discriminate|].
  rewrite obj_replace_cons. cbn [obj_mem existsb obj_lookup].
  fold (obj_mem k o). intros H. destruct (obj_mem k o) eqn:M.
  - rewrite (IH eq_refl). reflexivity.
  - assert (Hn : obj_lookup k (obj_replace k v o) = None).
    { apply obj_lookup_None. apply obj_mem_false.
      rewrite keys_replace. apply obj_mem_false. exact M. }
    rewrite orb_false_r in H. rewrite Hn, H. cbn [fst snd].
    rewrite String.eqb_refl. reflexivity.
Qed.

Lemma obj_lookup_replace_neq (k k' : string) (v : value) (o : obj) :
  k' <> k -> obj_lookup k' (obj_replace k v o) = obj_lookup k' o.
Proof.
  intros Hne. induction o as [|kv o IH]; [reflexivity|].
  rewrite obj_replace_cons. cbn [obj_lookup]. rewrite IH.
  destruct (obj_lookup k' o); [reflexivity|].
  destruct (k =? fst kv) eqn:E; [|reflexivity]. cbn [fst snd].
  apply String.eqb_eq in E. subst k.
  apply String.eqb_neq in Hne. rewrite Hne. reflexivity.
Qed.

Lemma keys_insert (k : string) (v : value) (o : obj) :
  forall k', In k' (keys (obj_insert k v o)) <-> k' = k \/ In k' (keys o).
Proof.
  induction o as [|[k1 v1] o IH]; intros k'; simpl.
  - intuition.
  - destruct (key_le k1 k); simpl; [rewrite IH|]; intuition.
Qed.

Lemma obj_lookup_insert_eq (k : string) (v : value) (o : obj) :
  obj_mem k o = false -> obj_lookup k (obj_insert k v o) = Some v.
Proof.
  induction o as [|[k1 v1] o IH]; simpl.
  - intros _. rewrite String.eqb_refl. reflexivity.
  - intros H. apply orb_false_elim in H. destruct H as [H1 H2].
    destruct (key_le k1 k); simpl.
    + rewrite (IH H2). reflexivity.
    + apply obj_lookup_None in H2. rewrite H2, H1, String.eqb_refl.
      reflexivity.
Qed.

Lemma obj_lookup_insert_neq (k k' : string) (v : value) (o : obj) :
  k' <> k -> obj_lookup k' (obj_insert k v o) = obj_lookup k' o.
Proof.
  intros Hne. apply String.eqb_neq in Hne.
  induction o as [|[k1 v1] o IH]; simpl.
  - rewrite Hne. reflexivity.
  - destruct (key_le k1 k); simpl; [rewrite IH; reflexivity|].
    rewrite Hne.
    destruct (obj_lookup k' o); [reflexivity|].
    destruct (k' =? k1); reflexivity.
Qed.

Lemma obj_lookup_set_eq (k : string) (v : value) (o : obj) :
  obj_lookup k (obj_set k v o) = Some v.
Proof.
  unfold obj_set. destruct (obj_mem k o) eqn:M.
  - apply obj_lookup_replace_eq; assumption.
  - apply obj_lookup_insert_eq; assumption.
Qed.

Lemma obj_lookup_set_neq (k k' : string) (v : value) (o : obj) :
  k' <> k -> obj_lookup k' (obj_set k v o) = obj_lookup k' o.
Proof.
  intros Hne. unfold obj_set. destruct (obj_mem k o).
  - apply obj_lookup_replace_neq; assumption.
  - apply obj_lookup_insert_neq; assumption.
Qed.

Lemma obj_lookup_set (k k' : string) (v : value) (o : obj) :
  obj_lookup k' (obj_set k v o) =
  if k' =? k then Some v else obj_lookup k' o.
Proof.
  destruct (k' =? k) eqn:E.
  - apply String.eqb_eq in E. subst. apply obj_lookup_set_eq.
  - apply String.eqb_neq in E. apply obj_lookup_set_neq; assumption.
Qed.

Lemma obj_lookup_set_all (k : string) (props target : obj) :
  obj_lookup k (obj_set_all props target) =
  match obj_lookup k props with
  | Some v => Some v
  | None => obj_lookup k target
  end.
Proof.
  unfold obj_set_all. revert target.
  induction props as [|[k1 v1] props IH]; intros target; simpl.
  - reflexivity.
  - rewrite IH. destruct (obj_lookup k props); [reflexivity|].
    rewrite obj_lookup_set. destruct (k =? k1); reflexivity.
Qed.

Lemma obj_lookup_filter (k : string) (p : string -> bool) (o : obj) :
  obj_lookup k (filter (fun kv => p (fst kv)) o) =
  if p k then obj_lookup k o else None.
Proof.
  induction o as [|[k1 v1] o IH]; simpl.
  - destruct (p k); reflexivity.
  - destruct (p k1) eqn:P1; simpl; rewrite IH; destruct (p k) eqn:Pk;
      try reflexivity;
      destruct (obj_lookup k o); try reflexivity;
      destruct (k =? k1) eqn:E; try reflexivity;
      apply String.eqb_eq in E; congruence.
Qed.

Lemma obj_get_set (k k' : string) (v : value) (o : obj) :
  obj_get (obj_set k v o) k' = if k' =? k then v else obj_get o k'.
Proof.
  unfold obj_get. rewrite obj_lookup_set. destruct (k' =? k); reflexivity.
Qed.

Lemma key_le_trans (a b c : string) :
  key_le a b = true -> key_le b c = true -> key_le a c = true.
Proof.
  unfold key_le.
  destruct (key_index a), (key_index b), (key_index c); try congruence.
  rewrite !N.leb_le. lia.
Qed.

Lemma key_le_total (a b : string) :
  key_le a b = false -> key_le b a = true.
Proof.
  unfold key_le.
  destruct (key_index a), (key_index b); try congruence.
  rewrite N.leb_le, N.leb_gt. lia.
Qed.

Lemma canonical_replace (k : string) (v : value) (o : obj) :
  canonical o -> canonical (obj_replace k v o).
Proof. unfold canonical. rewrite keys_replace. auto. Qed.

Lemma canonical_insert (k : string) (v : value) (o : obj) :
  ~ In k (keys o) -> canonical o -> canonical (obj_insert k v o).
Proof.
  unfold canonical.
  induction o as [|[k1 v1] o IH]; simpl; intros Hni Hc.
  - repeat split; auto.
  - destruct Hc as [Hn1 [Hle Hc]].
    destruct (key_le k1 k) eqn:E; simpl.
    + repeat split.
      * rewrite (keys_insert k v o k1). intros [->|H]; tauto.
      * rewrite Forall_forall in *. intros k' Hk'.
        apply (keys_insert k v o k') in Hk'. destruct Hk' as [->|Hk']; auto.
      * apply IH; [intros H; apply Hni; right; exact H | exact Hc].
    + split; [|split].
      * intros [H|H]; apply Hni; [left|right]; assumption.
      * constructor; [apply key_le_total; assumption|].
        rewrite Forall_forall in *. intros k' Hk'.
        apply key_le_trans with k1; [apply key_le_total|]; auto.
      * repeat split; assumption.
Qed.

Lemma canonical_set (k : string) (v : value) (o : obj) :
  canonical o -> canonical (obj_set k v o).
Proof.
  intros Hc. unfold obj_set. destruct (obj_mem k o) eqn:M.
  - apply canonical_replace; assumption.
  - apply canonical_insert; [apply obj_mem_false|]; assumption.
Qed.

Lemma canonical_set_all (props target : obj) :
  canonical target -> canonical (obj_set_all props target).
Proof.
  unfold obj_set_all. revert target.
  induction props as [|[k v] props IH]; intros target Hc; simpl; auto.
  apply IH. apply canonical_set. assumption.
Qed.

Lemma canonical_nil : canonical [].
Proof. exact I. Qed.

Lemma ordered_keys_app_inv (ks1 ks2 : list string) :
  ordered_keys (ks1 ++ ks2) ->
  ordered_keys ks1 /\ ordered_keys ks2 /\
  forall a b, In a ks1 -> In b ks2 -> a <> b /\ key_le a b = true.
Proof.
  induction ks1 as [|k ks1 IH]; simpl.
  - intros H. repeat split; auto; contradiction.
  - intros [Hn [Hle Hc]]. destruct (IH Hc) as [H1 [H2 H3]].
    rewrite Forall_app in Hle. destruct Hle as [Hle1 Hle2].
    repeat split; auto.
    + intros Hin. apply Hn. apply in_or_app. auto.
    + destruct H as [<-|H]; [|apply (H3 a b); assumption].
      intros ->. apply Hn. apply in_or_app. auto.
    + destruct H as [<-|H]; [|apply (H3 a b); assumption].
      rewrite Forall_forall in Hle2. auto.
Qed.

Lemma obj_insert_last (k : string) (v : value) (o : obj) :
  (forall a, In a (keys o) -> key_le a k = true) ->
  obj_insert k v o = o ++ [(k, v)].
Proof.
  induction o as [|[k1 v1] o IH]; simpl; intros H; [reflexivity|].
  rewrite (H k1) by auto. rewrite IH by auto. reflexivity.
Qed.

(** Copying the properties of an object onto the properties before them
    rebuilds the same object. *)
Lemma obj_set_all_canonical (o acc : obj) :
  canonical (acc ++ o) -> obj_set_all o acc = acc ++ o.
Proof.
  unfold obj_set_all. revert acc.
  induction o as [|[k v] o IH]; intros acc Hc; simpl.
  - rewrite app_nil_r. reflexivity.
  - assert (Hs : obj_set k v acc = acc ++ [(k, v)]).
    { unfold canonical, keys in Hc. rewrite map_app in Hc.
      apply ordered_keys_app_inv in Hc. destruct Hc as [_ [_ H]].
      unfold obj_set.
      assert (M : obj_mem k acc = false).
      { apply obj_mem_false. intros Hin.
        destruct (H k k Hin); simpl; auto. }
      rewrite M. apply obj_insert_last. intros a Ha.
      apply (H a k); simpl; auto. }
    rewrite Hs. rewrite IH; rewrite <- app_assoc; simpl; auto.
Qed.

Lemma spread_canonical (o : obj) :
  canonical o -> spread [] (VObj o) = o.
Proof. intros Hc. unfold spread. simpl. apply obj_set_all_canonical. auto. Qed.

Lemma canonical_spread (v : value) : canonical (spread [] v).
Proof. apply canonical_set_all, canonical_nil. Qed.

Lemma canonical_rest_props (ex : list string) (v : value) :
  canonical (rest_props ex v).
Proof. apply canonical_set_all, canonical_nil. Qed.

Lemma obj_replace_same (k : string) (v : value) (o : obj) :
  NoDup (keys o) -> obj_lookup k o = Some v -> obj_replace k v o = o.
Proof.
  induction o as [|[k1 v1] o IH]; simpl; intros Hnd Hl; [reflexivity|].
  inversion Hnd as [|? ? Hni Hnd']; subst.
  destruct (k =? k1) eqn:E.
  - apply String.eqb_eq in E. subst k1.
    assert (Hn : obj_lookup k o = None).
    { apply obj_lookup_None, obj_mem_false. assumption. }
    rewrite Hn in Hl. inversion Hl; subst. f_equal.
    unfold obj_replace. rewrite <- (map_id o) at 2. apply map_ext_in.
    intros [k2 v2] Hin. simpl. destruct (k =? k2) eqn:E2; [|reflexivity].
    apply String.eqb_eq in E2. subst k2. exfalso. apply Hni.
    apply (in_map fst) in Hin. exact Hin.
  - destruct (obj_lookup k o) eqn:L; [|discriminate].
    inversion Hl; subst. f_equal. apply IH; auto.
Qed.

Lemma ordered_keys_NoDup (ks : list string) : ordered_keys ks -> NoDup ks.
Proof.
  induction ks as [|k ks IH]; simpl; intros H; constructor; tauto.
Qed.

Lemma obj_set_same (k : string) (v : value) (o : obj) :
  canonical o -> obj_lookup k o = Some v -> obj_set k v o = o.
Proof.
  intros Hc Hl. unfold obj_set.
  destruct (obj_mem k o) eqn:M.
  - apply obj_replace_same; [apply ordered_keys_NoDup|]; assumption.
  - apply obj_lookup_None in M. congruence.
Qed.

(** ** Facts about the sanitizers *)

Lemma obj_lookup_rest_props (k : string) (ex : list string) (v : value) :
  obj_lookup k (rest_props ex v) =
  if not_excluded ex k then obj_lookup k (ownEnumerable v) else None.
Proof.
  unfold rest_props. rewrite obj_lookup_set_all.
  change (fun kv : string * value => negb (existsb (String.eqb (fst kv)) ex))
    with (fun kv : string * value => not_excluded ex (fst kv)).
  rewrite obj_lookup_filter.
  destruct (not_excluded ex k); [|reflexivity].
  destruct (obj_lookup k (ownEnumerable v)); reflexivity.
Qed.

Lemma obj_lookup_spread (k : string) (v : value) :
  obj_lookup k (spread [] v) = obj_lookup k (ownEnumerable v).
Proof.
  unfold spread. rewrite obj_lookup_set_all.
  destruct (obj_lookup k (ownEnumerable v)); reflexivity.
Qed.

Lemma obj_get_spread (k : string) (v : value) :
  obj_get (spread [] v) k = obj_get (ownEnumerable v) k.
Proof. unfold obj_get. rewrite obj_lookup_spread. reflexivity. Qed.

Lemma filter_all {A : Type} (f : A -> bool) (l : list A) :
  (forall x, In x l -> f x = true) -> filter f l = l.
Proof.
  induction l as [|x l IH]; simpl; intros H; [reflexivity|].
  rewrite (H x) by auto. rewrite IH by auto. reflexivity.
Qed.

Lemma rest_props_fixed (k : string) (o : obj) :
  canonical o -> obj_lookup k o = None -> rest_props [k] (VObj o) = o.
Proof.
  intros Hc Hn. unfold rest_props. simpl ownEnumerable.
  rewrite filter_all.
  - apply (obj_set_all_canonical o []). exact Hc.
  - intros [k1 v1] Hin. simpl. rewrite orb_false_r.
    destruct (k1 =? k) eqn:E; [|reflexivity].
    apply String.eqb_eq in E. subst k1.
    apply obj_lookup_None, obj_mem_false in Hn. exfalso. apply Hn.
    apply (in_map fst) in Hin. exact Hin.
Qed.

Lemma is_object_cases (v : value) :
  is_object v = true <-> (exists o, v = VObj o) \/ (exists l, v = VArr l).
Proof.
  split.
  - destruct v; try discriminate; eauto.
    unfold is_object. rewrite andb_false_r. discriminate.
    unfold is_object. rewrite andb_false_r. discriminate.
    unfold is_object. rewrite andb_false_r. discriminate.
  - intros [[o ->]|[l ->]]; reflexivity.
Qed.

Lemma is_object_spec (v : value) :
  is_object v = true <-> v <> VNull /\ is_object_type v = true.
Proof.
  split.
  - intros H. apply is_object_cases in H.
    destruct H as [[o ->]|[l ->]]; split; (discriminate || reflexivity).
  - intros [Hn Ht]. destruct v; try discriminate; try reflexivity.
    congruence.
Qed.

Lemma sanitizePart_passthrough (p : value) :
  is_object p = false -> sanitizePart p = p.
Proof.
  unfold is_object, sanitizePart. intros H.
  rewrite <- negb_andb, H. reflexivity.
Qed.

Lemma sanitizePart_object (p : value) :
  is_object p = true ->
  sanitizePart p = VObj (rest_props ["thoughtSignature"] p).
Proof.
  unfold is_object, sanitizePart. intros H.
  rewrite <- negb_andb, H. reflexivity.
Qed.

Lemma sanitizePart_idem (p : value) :
  sanitizePart (sanitizePart p) = sanitizePart p.
Proof.
  destruct (is_object p) eqn:E.
  - rewrite (sanitizePart_object p E).
    rewrite sanitizePart_object by reflexivity. f_equal.
    apply rest_props_fixed; [apply canonical_rest_props|].
    rewrite obj_lookup_rest_props. reflexivity.
  - rewrite (sanitizePart_passthrough p E).
    apply sanitizePart_passthrough. exact E.
Qed.

Lemma sanitizeCandidate_passthrough (c index : value) :
  is_object c = false -> sanitizeCandidate c index = Ok c.
Proof.
  unfold is_object, sanitizeCandidate. intros H.
  rewrite <- negb_andb, H. reflexivity.
Qed.

Lemma sanitizeCandidate_object (c index : value) :
  is_object c = true ->
  sanitizeCandidate c index =
  Ok (VObj (with_parts (with_index index (spread [] c)))).
Proof.
  unfold is_object, sanitizeCandidate. intros H.
  rewrite <- negb_andb, H. cbn [negb].
  fold (with_index index (spread [] c)).
  set (r := with_index index (spread [] c)).
  unfold with_parts, getProp.
  destruct (obj_get r "content") as [| |b|n|s|l|o];
    cbn [truthy nullish bind]; try reflexivity;
    repeat match goal with
      | |- context [prop ?a ?k] => destruct (prop a k)
      | |- context [if ?x then _ else _] => destruct x
      end; reflexivity.
Qed.

(** [sanitizeCandidate] always returns. *)
Lemma sanitizeCandidate_total (c index : value) :
  exists r, sanitizeCandidate c index = Ok r.
Proof.
  destruct (is_object c) eqn:E.
  - rewrite sanitizeCandidate_object by assumption. eauto.
  - rewrite sanitizeCandidate_passthrough by assumption. eauto.
Qed.

Lemma canonical_with_index (index : value) (o : obj) :
  canonical o -> canonical (with_index index o).
Proof.
  unfold with_index. intros H.
  destruct (is_undefined (obj_get o "index")); [apply canonical_set|]; auto.
Qed.

Lemma canonical_with_parts (o : obj) :
  canonical o -> canonical (with_parts o).
Proof.
  unfold with_parts. intros H.
  destruct (prop (obj_get o "content") "parts"); auto.
  destruct (truthy (obj_get o "content")); [apply canonical_set|]; auto.
Qed.

Lemma with_index_defined (index : value) (o : obj) :
  is_undefined index = false ->
  is_undefined (obj_get (with_index index o) "index") = false.
Proof.
  unfold with_index. intros H.
  destruct (is_undefined (obj_get o "index")) eqn:E; [|exact E].
  rewrite obj_get_set. exact H.
Qed.

Lemma with_index_fixed (index : value) (o : obj) :
  is_undefined (obj_get o "index") = false -> with_index index o = o.
Proof. unfold with_index. intros ->. reflexivity. Qed.

Lemma obj_get_with_parts_index (o : obj) :
  obj_get (with_parts o) "index" = obj_get o "index".
Proof.
  unfold with_parts.
  destruct (prop (obj_get o "content") "parts"); try reflexivity.
  destruct (truthy (obj_get o "content")); [|reflexivity].
  rewrite obj_get_set. reflexivity.
Qed.

Lemma with_parts_array (o : obj) (ps : list value) :
  prop (obj_get o "content") "parts" = VArr ps ->
  truthy (obj_get o "content") = true ->
  with_parts o =
  obj_set "content"
    (VObj (obj_set "parts" (VArr (map sanitizePart ps))
             (spread [] (obj_get o "content")))) o.
Proof. unfold with_parts. intros -> ->. reflexivity. Qed.

Lemma with_parts_other (o : obj) :
  isArray (prop (obj_get o "content") "parts") = false \/
  truthy (obj_get o "content") = false ->
  with_parts o = o.
Proof.
  unfold with_parts. intros [H|H].
  - destruct (prop (obj_get o "content") "parts");
      reflexivity || discriminate.
  - rewrite H. destruct (prop (obj_get o "content") "parts"); reflexivity.
Qed.

Lemma with_parts_idem (o : obj) :
  canonical o -> with_parts (with_parts o) = with_parts o.
Proof.
  intros Hc.
  destruct (truthy (obj_get o "content")) eqn:T;
    [|rewrite !(with_parts_other o); auto].
  destruct (prop (obj_get o "content") "parts") as [| | | | |ps|] eqn:P;
    try solve [rewrite !(with_parts_other o);
               [reflexivity|rewrite P; left; reflexivity ..]].
  rewrite (with_parts_array o ps P T).
  set (co := obj_set "parts" (VArr (map sanitizePart ps))
               (spread [] (obj_get o "content"))).
  assert (Hco : canonical co) by apply canonical_set, canonical_spread.
  assert (Hget : obj_get (obj_set "content" (VObj co) o) "content" = VObj co).
  { rewrite obj_get_set. reflexivity. }
  assert (Hparts : obj_lookup "parts" co = Some (VArr (map sanitizePart ps))).
  { unfold co. apply obj_lookup_set_eq. }
  rewrite (with_parts_array _ (map sanitizePart ps)).
  - rewrite Hget. rewrite spread_canonical by exact Hco.
    rewrite map_map. rewrite (map_ext _ _ sanitizePart_idem).
    rewrite (obj_set_same "parts" _ co Hco Hparts).
    apply obj_set_same; [apply canonical_set; exact Hc|].
    apply obj_lookup_set_eq.
  - rewrite Hget. cbn [prop]. unfold obj_get. rewrite Hparts. reflexivity.
  - rewrite Hget. reflexivity.
Qed.

Lemma obj_lookup_with_index (index : value) (o : obj) (k : string) :
  k <> "index" -> obj_lookup k (with_index index o) = obj_lookup k o.
Proof.
  intros Hk. unfold with_index.
  destruct (is_undefined (obj_get o "index")); [|reflexivity].
  apply obj_lookup_set_neq. exact Hk.
Qed.

Lemma obj_get_with_index (index : value) (o : obj) :
  obj_get (with_index index o) "index" =
  if is_undefined (obj_get o "index") then index else obj_get o "index".
Proof.
  unfold with_index.
  destruct (is_undefined (obj_get o "index")); [|reflexivity].
  rewrite obj_get_set. reflexivity.
Qed.

Lemma obj_lookup_with_parts (o : obj) (k : string) :
  k <> "content" -> obj_lookup k (with_parts o) = obj_lookup k o.
Proof.
  intros Hk. unfold with_parts.
  destruct (prop (obj_get o "content") "parts"); try reflexivity.
  destruct (truthy (obj_get o "content")); [|reflexivity].
  apply obj_lookup_set_neq. exact Hk.
Qed.

(** Only an object has a [parts] property that is an array. *)
Lemma prop_parts_array (v : value) (ps : list value) :
  prop v "parts" = VArr ps -> truthy v = true.
Proof.
  destruct v; try reflexivity; discriminate.
Qed.

Lemma sanitizePart_fields (p : value) :
  (is_object p = false -> sanitizePart p = p) /\
  (is_object p = true ->
   exists q,
     sanitizePart p = VObj q /\
     obj_lookup "thoughtSignature" q = None /\
     forall k, k <> "thoughtSignature" ->
               obj_lookup k q = obj_lookup k (ownEnumerable p)).
Proof.
  split; [apply sanitizePart_passthrough|].
  intros H. exists (rest_props ["thoughtSignature"] p).
  split; [apply sanitizePart_object; exact H|].
  split; [rewrite obj_lookup_rest_props; reflexivity|].
  intros k Hk. rewrite obj_lookup_rest_props.
  unfold not_excluded. simpl. apply String.eqb_neq in Hk. rewrite Hk.
  reflexivity.
Qed.

(** An array is an object for [typeof]: as a part, or as a candidate, it is
    copied as the object of its indexed fields. *)
Example sanitizePart_array :
  sanitizePart (VArr [VNum 1; VNum 2]) = VObj [("0", VNum 1); ("1", VNum 2)].
Proof. reflexivity. Qed.

(** C1.  [sanitizeCandidate(c, i)] returns [c] itself when [c] is [null] or
    not an object.  Otherwise it returns an object [r] such that: [r.index]
    is [c]'s own [index] when that is defined and [i] otherwise; every own
    field of [c] other than [index] and [content] is a field of [r] with the
    same value, and [r] has no other such field; when [c.content.parts] is an
    array [ps], [r.content] is an object whose [parts] is the array
    [ps.map(sanitizePart)] (same length, same order) and whose other fields
    are those of [c.content]; when it is not an array, [r.content] is
    [c.content].  A part that is not an object is kept as it is, and the
    sanitized form of a part that is an object has no [thoughtSignature]
    field and otherwise exactly the fields of the part.  Fields are the own
    enumerable properties, which is what the copies copy.  On the example of
    the specification the result is [{content: {parts: [{text: "a"}]},
    index: 2}]. *)
Theorem sanitizeCandidate_spec (c : value) (i : Z) :
  (c = VNull \/ is_object_type c = false ->
   sanitizeCandidate c (VNum i) = Ok c) /\
  (c <> VNull -> is_object_type c = true ->
   exists r,
     sanitizeCandidate c (VNum i) = Ok (VObj r) /\
     obj_get r "index" =
       (if is_undefined (obj_get (ownEnumerable c) "index") then VNum i
        else obj_get (ownEnumerable c) "index") /\
     (forall k, k <> "index" -> k <> "content" ->
                obj_lookup k r = obj_lookup k (ownEnumerable c)) /\
     (forall ps,
        prop (obj_get (ownEnumerable c) "content") "parts" = VArr ps ->
        exists co ps',
          obj_lookup "content" r = Some (VObj co) /\
          obj_lookup "parts" co = Some (VArr ps') /\
          ps' = map sanitizePart ps /\
          List.length ps' = List.length ps /\
          (forall n, nth_error ps' n =
                     option_map sanitizePart (nth_error ps n)) /\
          (forall k, k <> "parts" ->
             obj_lookup k co =
             obj_lookup k
               (ownEnumerable (obj_get (ownEnumerable c) "content")))) /\
     (isArray (prop (obj_get (ownEnumerable c) "content") "parts") = false ->
      obj_lookup "content" r = obj_lookup "content" (ownEnumerable c))) /\
  (forall p,
     (is_object p = false -> sanitizePart p = p) /\
     (is_object p = true ->
      exists q,
        sanitizePart p = VObj q /\
        obj_lookup "thoughtSignature" q = None /\
        forall k, k <> "thoughtSignature" ->
                  obj_lookup k q = obj_lookup k (ownEnumerable p))) /\
  sanitizeCandidate example_candidate (VNum 2) = Ok example_sanitized.
Proof.
  split; [|split; [|split; [exact sanitizePart_fields|reflexivity]]].
  - intros H. apply sanitizeCandidate_passthrough.
    destruct (is_object c) eqn:E; [|reflexivity].
    apply is_object_spec in E. destruct H; [tauto|]. destruct E. congruence.
  - intros Hn Ht.
    assert (E : is_object c = true) by (apply is_object_spec; auto).
    exists (with_parts (with_index (VNum i) (spread [] c))).
    split; [apply sanitizeCandidate_object; exact E|].
    assert (Hcontent :
      obj_get (with_index (VNum i) (spread [] c)) "content" =
      obj_get (ownEnumerable c) "content").
    { unfold obj_get. rewrite obj_lookup_with_index by discriminate.
      rewrite obj_lookup_spread. reflexivity. }
    split; [|split; [|split]].
    + rewrite obj_get_with_parts_index, obj_get_with_index, obj_get_spread.
      reflexivity.
    + intros k Hi Hc. rewrite obj_lookup_with_parts by exact Hc.
      rewrite obj_lookup_with_index by exact Hi. apply obj_lookup_spread.
    + intros ps Hps. rewrite <- Hcontent in Hps.
      rewrite (with_parts_array _ ps Hps (prop_parts_array _ _ Hps)).
      eexists. exists (map sanitizePart ps).
      split; [apply obj_lookup_set_eq|].
      split; [apply obj_lookup_set_eq|].
      split; [reflexivity|].
      split; [apply length_map|].
      split; [intros n; apply nth_error_map|].
      intros k Hk. rewrite obj_lookup_set_neq by exact Hk.
      rewrite Hcontent. apply obj_lookup_spread.
    + intros Hna. rewrite <- Hcontent in Hna.
      rewrite with_parts_other by (left; exact Hna).
      rewrite obj_lookup_with_index by discriminate.
      apply obj_lookup_spread.
Qed.

Lemma sanitizeCandidate_spec_witness :
  exists r,
    sanitizeCandidate example_candidate (VNum 2) = Ok (VObj r) /\
    obj_get r "index" = VNum 2 /\
    exists co,
      obj_lookup "content" r = Some (VObj co) /\
      obj_lookup "parts" co = Some (VArr [VObj [("text", VStr "a")]]).
Proof.
  destruct (sanitizeCandidate_spec example_candidate 2) as [_ [H _]].
  destruct H as [r [H1 [H2 [_ [H3 _]]]]];
    [discriminate | reflexivity |].
  destruct (H3 _ eq_refl) as [co [ps' [H4 [H5 [H6 _]]]]].
  exists r. split; [exact H1|]. split; [exact H2|].
  exists co. split; [exact H4|]. rewrite H5, H6. reflexivity.
Defined.

(** Sanitizing a sanitized candidate again changes nothing. *)
Lemma sanitizeCandidate_again (c index r : value) :
  is_undefined index = false ->
  sanitizeCandidate c index = Ok r -> sanitizeCandidate r index = Ok r.
Proof.
  intros Hi. destruct (is_object c) eqn:E.
  - rewrite sanitizeCandidate_object by exact E. intros H. inversion H.
    rewrite sanitizeCandidate_object by reflexivity.
    set (o := with_index index (spread [] c)).
    assert (Ho : canonical o)
      by apply canonical_with_index, canonical_spread.
    rewrite spread_canonical by (apply canonical_with_parts; exact Ho).
    rewrite with_index_fixed.
    + rewrite with_parts_idem by exact Ho. reflexivity.
    + rewrite obj_get_with_parts_index. apply with_index_defined. exact Hi.
  - rewrite sanitizeCandidate_passthrough by exact E. intros H.
    inversion H. subst. apply sanitizeCandidate_passthrough. exact E.
Qed.

(** C7.  [sanitizeCandidate] is idempotent: for every candidate [c] and
    integer [i] the call returns some [r], and [sanitizeCandidate(r, i)]
    returns that same [r]. *)
Theorem sanitizeCandidate_idempotent (c : value) (i : Z) :
  exists r,
    sanitizeCandidate c (VNum i) = Ok r /\
    sanitizeCandidate r (VNum i) = Ok r.
Proof.
  destruct (sanitizeCandidate_total c (VNum i)) as [r Hr]. exists r.
  split; [exact Hr|].
  apply (sanitizeCandidate_again c (VNum i) r eq_refl Hr).
Qed.

(** ** Facts about [extractGeminiResponse] *)

Lemma truthy_not_nullish (v : value) : truthy v = true -> nullish v = false.
Proof. destruct v; simpl; congruence. Qed.

Lemma getProp_truthy (v : value) (k : string) :
  truthy v = true -> getProp v k = Ok (prop v k).
Proof.
  intros H. unfold getProp. rewrite (truthy_not_nullish v H). reflexivity.
Qed.

Lemma sanitizeCandidates_from (cs : list value) (i0 : Z) :
  exists cs',
    mapi_from (fun c idx => sanitizeCandidate c (VNum idx)) i0 cs = Ok cs' /\
    List.length cs' = List.length cs /\
    forall n c, nth_error cs n = Some c ->
      exists c', nth_error cs' n = Some c' /\
                 sanitizeCandidate c (VNum (i0 + Z.of_nat n)) = Ok c'.
Proof.
  revert i0. induction cs as [|c cs IH]; intros i0.
  - exists []. repeat split. intros [|n] c H; discriminate.
  - destruct (sanitizeCandidate_total c (VNum i0)) as [c' Hc'].
    destruct (IH (i0 + 1)%Z) as [cs' [H1 [H2 H3]]].
    exists (c' :: cs'). cbn [mapi_from]. rewrite Hc'. cbn [bind].
    rewrite H1. cbn [bind]. split; [reflexivity|]. split; [simpl; lia|].
    intros [|n] x Hx; cbn [nth_error] in *.
    + inversion Hx; subst. exists c'. split; [reflexivity|].
      rewrite Z.add_0_r. exact Hc'.
    + destruct (H3 n x Hx) as [x' [Hx1 Hx2]]. exists x'.
      split; [exact Hx1|].
      replace (i0 + Z.of_nat (S n))%Z with (i0 + 1 + Z.of_nat n)%Z by lia.
      exact Hx2.
Qed.

(** The code of [extractGeminiResponse] in terms of the unwrapped payload. *)
Lemma extractGeminiResponse_unwrap (r : value) :
  extractGeminiResponse r =
  match prop (unwrap r) "candidates" with
  | VArr cs =>
      cs' <- sanitizeCandidates cs ;;
      Ok (VObj (obj_set "candidates" (VArr cs') (spread [] (unwrap r))))
  | _ => Ok (unwrap r)
  end.
Proof.
  unfold extractGeminiResponse, unwrap.
  destruct (truthy r) eqn:Tr.
  - rewrite (getProp_truthy r "response" Tr). cbn [bind andb].
    destruct (truthy (prop r "response")) eqn:Tp.
    + cbn [bind]. rewrite Tp. cbn [negb]. rewrite (getProp_truthy _ "candidates" Tp). reflexivity.
    + cbn [bind]. rewrite Tr. cbn [negb].
      rewrite (getProp_truthy _ "candidates" Tr). reflexivity.
  - cbn [bind andb]. rewrite Tr. cbn [bind]. rewrite Tr. cbn [negb].
    destruct r; try discriminate; reflexivity.
Qed.

(** [extractGeminiResponse] always returns. *)
Lemma extractGeminiResponse_total (r : value) :
  exists p, extractGeminiResponse r = Ok p.
Proof.
  rewrite extractGeminiResponse_unwrap.
  destruct (prop (unwrap r) "candidates"); eauto.
  destruct (sanitizeCandidates_from l 0) as [cs' [H _]].
  unfold sanitizeCandidates. rewrite H. cbn [bind]. eauto.
Qed.

(** C2, as amended.  [extractGeminiResponse(r)] unwraps by truthiness: the
    payload is [r.response] when [r] and [r.response] are both truthy and
    [r] itself otherwise.  When the payload's [candidates] is not an array
    the payload itself is returned.  Otherwise the result is an object whose
    [candidates] is an array of the same length as the original, its element
    at each position [n] being [sanitizeCandidate] of the original element
    at [n] with index [n], and whose other fields are exactly those of the
    payload. *)
Theorem extractGeminiResponse_spec (r : value) :
  (isArray (prop (unwrap r) "candidates") = false ->
   extractGeminiResponse r = Ok (unwrap r)) /\
  (forall cs,
     prop (unwrap r) "candidates" = VArr cs ->
     exists o cs',
       extractGeminiResponse r = Ok (VObj o) /\
       obj_lookup "candidates" o = Some (VArr cs') /\
       List.length cs' = List.length cs /\
       (forall n c, nth_error cs n = Some c ->
          exists c', nth_error cs' n = Some c' /\
                     sanitizeCandidate c (VNum (Z.of_nat n)) = Ok c') /\
       (forall k, k <> "candidates" ->
          obj_lookup k o = obj_lookup k (ownEnumerable (unwrap r)))).
Proof.
  rewrite extractGeminiResponse_unwrap. split.
  - intros H. destruct (prop (unwrap r) "candidates");
      reflexivity || discriminate.
  - intros cs Hcs. rewrite Hcs.
    destruct (sanitizeCandidates_from cs 0) as [cs' [H1 [H2 H3]]].
    eexists. exists cs'. unfold sanitizeCandidates. rewrite H1. cbn [bind].
    split; [reflexivity|].
    split; [apply obj_lookup_set_eq|].
    split; [exact H2|].
    split; [exact H3|].
    intros k Hk. rewrite obj_lookup_set_neq by exact Hk.
    apply obj_lookup_spread.
Qed.

Lemma extractGeminiResponse_spec_witness :
  extractGeminiResponse null_envelope = Ok null_envelope.
Proof.
  destruct (extractGeminiResponse_spec null_envelope) as [H _].
  exact (H eq_refl).
Defined.

(** C2, as stated, fails: an envelope whose [response] property is [null]
    has the key, so the payload by key presence is [null], which has no
    [candidates] array and would be returned; the code returns the envelope
    itself. *)
Lemma extractGeminiResponse_not_by_key_presence :
  obj_mem "response" (ownEnumerable null_envelope) = true /\
  unwrap_by_key_presence null_envelope = VNull /\
  isArray (prop (unwrap_by_key_presence null_envelope) "candidates") = false /\
  extractGeminiResponse null_envelope <>
  Ok (unwrap_by_key_presence null_envelope).
Proof.
  repeat split. discriminate.
Qed.

(** ** Facts about [convertGeminiToAntigravity] *)

Lemma getProp_defined (v : value) (k : string) :
  nullish v = false -> getProp v k = Ok (prop v k).
Proof. unfold getProp. intros ->. reflexivity. Qed.

Lemma nullish_incoming_config (req : value) :
  prop req "generationConfig" <> VNull ->
  nullish (incoming_config req) = false.
Proof.
  unfold incoming_config. intros H.
  destruct (prop req "generationConfig"); try reflexivity. congruence.
Qed.

Lemma bind_Ok {A B : Type} (m : result A) (f : A -> result B) (r : B) :
  bind m f = Ok r -> exists a, m = Ok a /\ f a = Ok r.
Proof. destruct m as [a|e]; [eauto|discriminate]. Qed.

Lemma getProp_Ok (v : value) (k : string) (x : value) :
  getProp v k = Ok x -> nullish v = false /\ x = prop v k.
Proof.
  unfold getProp. destruct (nullish v); [discriminate|].
  intros H. inversion H. auto.
Qed.

Section RequestFacts.

Variable config : value.
Variable IdState : Type.
Variable generateRequestId : IdState -> value * IdState.

Lemma resolve_field_default (gc : value) (field name : string) :
  nullish gc = false ->
  nullish config = false ->
  nullish (prop config "defaults") = false ->
  resolve_field gc field (config_default config name) =
  Ok (js_coalesce (prop gc field) (prop (prop config "defaults") name)).
Proof.
  intros Hg Hc Hd. unfold resolve_field, config_default, coalesce.
  rewrite (getProp_defined gc field Hg), (getProp_defined config _ Hc).
  cbn [bind]. rewrite (getProp_defined _ name Hd).
  unfold js_coalesce. destruct (nullish (prop gc field)); reflexivity.
Qed.

Lemma resolve_field_literal (gc : value) (field : string) (d : value) :
  nullish gc = false ->
  resolve_field gc field (Ok d) = Ok (js_coalesce (prop gc field) d).
Proof.
  intros Hg. unfold resolve_field, coalesce.
  rewrite (getProp_defined gc field Hg). cbn [bind].
  unfold js_coalesce. destruct (nullish (prop gc field)); reflexivity.
Qed.

(** On accepted inputs the translator returns, after one call of the
    identifier supply, the internal request described field by field. *)
Lemma convert_returns (model req token : value) (ids : IdState) :
  accepted config req token ->
  convertGeminiToAntigravity config IdState generateRequestId
    model req token ids =
  Ok (internal_request config (fst (generateRequestId ids)) model req token,
      snd (generateRequestId ids)).
Proof.
  intros [Hr [Ht [Hg [Hc Hd]]]].
  pose proof (nullish_incoming_config req Hg) as Hi.
  unfold convertGeminiToAntigravity.
  rewrite !(getProp_defined req _ Hr). cbn [bind].
  fold (incoming_config req).
  rewrite !(resolve_field_default _ _ _ Hi Hc Hd). cbn [bind].
  rewrite (resolve_field_literal _ _ _ Hi). cbn [bind].
  rewrite !(getProp_defined token _ Ht).
  rewrite !(getProp_defined config _ Hc).
  destruct (generateRequestId ids) as [rid ids'] eqn:G. cbn [fst snd].
  unfold internal_request, inner_request, final_instruction.
  fold pattern_keys.
  destruct (truthy (prop req "systemInstruction")) eqn:Ts.
  - rewrite !(getProp_truthy _ _ Ts). cbn [bind].
    destruct (truthy (prop (prop req "systemInstruction") "parts"));
      reflexivity.
  - cbn [bind].
    destruct (truthy (prop config "systemInstruction")); reflexivity.
Qed.

Lemma config_default_Ok (name : string) (x : value) :
  config_default config name = Ok x ->
  nullish config = false /\ x = prop (prop config "defaults") name.
Proof.
  unfold config_default. intros H.
  apply bind_Ok in H. destruct H as [d [H1 H2]].
  apply getProp_Ok in H1. destruct H1 as [Hc ->].
  apply getProp_Ok in H2. destruct H2 as [_ ->]. auto.
Qed.

Lemma resolve_field_Ok (gc : value) (field : string) (fallback : result value)
  (d v : value) :
  (forall x, fallback = Ok x -> x = d) ->
  resolve_field gc field fallback = Ok v ->
  nullish gc = false /\ v = js_coalesce (prop gc field) d.
Proof.
  intros Hd H. unfold resolve_field in H.
  apply bind_Ok in H. destruct H as [given [H1 H2]].
  apply getProp_Ok in H1. destruct H1 as [Hg ->].
  split; [exact Hg|]. unfold coalesce, js_coalesce in *.
  destruct (nullish (prop gc field)); [apply Hd; exact H2|].
  inversion H2. reflexivity.
Qed.

(** Whenever the translator returns, it has called the identifier supply
    once and returns the internal request described field by field, and
    neither the request nor the token was [null] or [undefined]. *)
Lemma convert_result (model req token out : value) (ids ids' : IdState) :
  convertGeminiToAntigravity config IdState generateRequestId
    model req token ids = Ok (out, ids') ->
  out = internal_request config (fst (generateRequestId ids)) model req token
  /\ ids' = snd (generateRequestId ids)
  /\ nullish req = false /\ nullish token = false.
Proof.
  unfold convertGeminiToAntigravity. intros H.
  apply bind_Ok in H. destruct H as [x1 [H1 H]].
  apply getProp_Ok in H1. destruct H1 as [Hr ->].
  rewrite !(getProp_defined req _ Hr) in H. cbn [bind] in H.
  fold (incoming_config req) in H. fold pattern_keys in H.
  apply bind_Ok in H. destruct H as [topP [H1 H]].
  apply (resolve_field_Ok _ _ _ (prop (prop config "defaults") "top_p"))
    in H1; [|intros x Hx; apply (config_default_Ok _ _ Hx)].
  destruct H1 as [Hg ->].
  apply bind_Ok in H. destruct H as [topK [H1 H]].
  apply (resolve_field_Ok _ _ _ (prop (prop config "defaults") "top_k"))
    in H1; [|intros x Hx; apply (config_default_Ok _ _ Hx)].
  destruct H1 as [_ ->].
  apply bind_Ok in H. destruct H as [temperature [H1 H]].
  apply (resolve_field_Ok _ _ _
           (prop (prop config "defaults") "temperature"))
    in H1; [|intros x Hx; apply (config_default_Ok _ _ Hx)].
  destruct H1 as [_ ->].
  apply bind_Ok in H. destruct H as [maxOutputTokens [H1 H]].
  apply (resolve_field_Ok _ _ _
           (prop (prop config "defaults") "max_tokens"))
    in H1; [|intros x Hx; apply (config_default_Ok _ _ Hx)].
  destruct H1 as [_ ->].
  apply bind_Ok in H. destruct H as [candidateCount [H1 H]].
  apply (resolve_field_Ok _ _ _ (VNum 1)) in H1;
    [|intros x Hx; inversion Hx; reflexivity].
  destruct H1 as [_ ->].
  apply bind_Ok in H. destruct H as [final [H1 H]].
  assert (Hfinal :
    final = final_instruction config (prop req "systemInstruction")).
  { unfold final_instruction, default_part.
    destruct (truthy (prop req "systemInstruction")) eqn:Ts.
    - rewrite !(getProp_truthy _ _ Ts) in H1. cbn [bind] in H1.
      destruct (truthy (prop (prop req "systemInstruction") "parts")).
      + cbn [bind] in H1. inversion H1. reflexivity.
      + apply bind_Ok in H1. destruct H1 as [parts [H2 H1]].
        apply bind_Ok in H2. destruct H2 as [text [H2 H3]].
        apply getProp_Ok in H2. destruct H2 as [_ ->].
        inversion H3. subst parts. inversion H1. reflexivity.
    - apply bind_Ok in H1. destruct H1 as [text [H2 H1]].
      apply getProp_Ok in H2. destruct H2 as [_ ->].
      destruct (truthy (prop config "systemInstruction"));
        inversion H1; reflexivity. }
  subst final. clear H1.
  apply bind_Ok in H. destruct H as [project [H1 H]].
  apply getProp_Ok in H1. destruct H1 as [Ht ->].
  destruct (generateRequestId ids) as [rid ids1]. cbn [fst snd].
  rewrite (getProp_defined token _ Ht) in H. cbn [bind] in H.
  inversion H. repeat split; assumption.
Qed.

End RequestFacts.

Lemma named_field_cases (P : string -> Prop) :
  P "topP" -> P "topK" -> P "temperature" -> P "maxOutputTokens" ->
  P "candidateCount" -> forall field, In field named_fields -> P field.
Proof.
  intros H1 H2 H3 H4 H5 field Hin. simpl in Hin.
  destruct Hin as [<-|[<-|[<-|[<-|[<-|[]]]]]]; assumption.
Qed.

(** A named field that is not an own property reads as [undefined]. *)
Lemma prop_named_absent (gc : value) (field : string) :
  In field named_fields ->
  obj_lookup field (ownEnumerable gc) = None ->
  prop gc field = VUndefined.
Proof.
  intros Hin.
  refine (named_field_cases
            (fun f => obj_lookup f (ownEnumerable gc) = None ->
                      prop gc f = VUndefined) _ _ _ _ _ field Hin);
    destruct gc; try reflexivity;
    simpl; unfold obj_get; intros ->; reflexivity.
Qed.

Lemma obj_lookup_merged_config (config gc : value) (field : string) :
  In field named_fields ->
  obj_lookup field (merged_config config gc) =
  match obj_lookup field (ownEnumerable gc) with
  | Some v => Some v
  | None => Some (field_default config field)
  end.
Proof.
  intros Hin. unfold merged_config, spread. rewrite obj_lookup_set_all.
  destruct (obj_lookup field (ownEnumerable gc)) eqn:L; [reflexivity|].
  pose proof (prop_named_absent gc field Hin L) as Hp.
  revert L Hp.
  refine (named_field_cases
            (fun f => obj_lookup f (ownEnumerable gc) = None ->
                      prop gc f = VUndefined ->
                      obj_lookup f
                        (map (fun field0 =>
                                (field0,
                                 js_coalesce (prop gc field0)
                                   (field_default config field0)))
                           named_fields) =
                      Some (field_default config f)) _ _ _ _ _ field Hin);
    intros _ Hp; cbn; rewrite Hp; reflexivity.
Qed.

Lemma obj_lookup_inner_request_fixed (config req token : value)
  (k : string) :
  In k ["contents"; "generationConfig"; "systemInstruction"] ->
  obj_lookup k (inner_request config req token) =
  obj_lookup k
    [("contents",
      if is_undefined (prop req "contents") then VArr []
      else prop req "contents");
     ("systemInstruction",
      final_instruction config (prop req "systemInstruction"));
     ("generationConfig",
      VObj (merged_config config (incoming_config req)))].
Proof.
  intros Hin. unfold inner_request, spread. rewrite obj_lookup_set_all.
  cbn [ownEnumerable]. rewrite obj_lookup_rest_props.
  simpl in Hin. destruct Hin as [<-|[<-|[<-|[]]]]; reflexivity.
Qed.

Lemma prop_request_generationConfig (config rid model req token : value) :
  prop (prop (internal_request config rid model req token) "request")
    "generationConfig" =
  VObj (merged_config config (incoming_config req)).
Proof.
  change (prop (internal_request config rid model req token) "request")
    with (VObj (inner_request config req token)).
  cbn [prop]. unfold obj_get.
  rewrite obj_lookup_inner_request_fixed by (simpl; auto). reflexivity.
Qed.

Lemma prop_request_systemInstruction (config rid model req token : value) :
  prop (prop (internal_request config rid model req token) "request")
    "systemInstruction" =
  final_instruction config (prop req "systemInstruction").
Proof.
  change (prop (internal_request config rid model req token) "request")
    with (VObj (inner_request config req token)).
  cbn [prop]. unfold obj_get.
  rewrite obj_lookup_inner_request_fixed by (simpl; auto). reflexivity.
Qed.




Section RequestClaims.

Variable config : value.
Variable IdState : Type.
Variable generateRequestId : IdState -> value * IdState.

Local Abbreviation convert :=
  (convertGeminiToAntigravity config IdState generateRequestId).

(** C4.  The translator returns on every accepted call, and whenever it
    returns, the [request.generationConfig] of the result is an object in
    which each of [topP], [topK], [temperature], [maxOutputTokens] and
    [candidateCount] is resolved on its own: a field that the incoming
    [generationConfig] supplies has the supplied value, and a field that it
    does not supply has the configured default ([defaults.top_p],
    [defaults.top_k], [defaults.temperature], [defaults.max_tokens]), the
    literal 1 for [candidateCount].  With an empty incoming
    [generationConfig] the merged configuration is exactly the four defaults
    and [candidateCount: 1]. *)
Theorem merged_generationConfig_resolution
  (model req token : value) (ids : IdState) :
  (accepted config req token ->
   exists out ids', convert model req token ids = Ok (out, ids')) /\
  (forall out ids',
     convert model req token ids = Ok (out, ids') ->
     exists merged,
       prop (prop out "request") "generationConfig" = VObj merged /\
       (forall field, In field named_fields ->
          (forall v,
             obj_lookup field (ownEnumerable (incoming_config req)) =
               Some v ->
             obj_lookup field merged = Some v) /\
          (obj_lookup field (ownEnumerable (incoming_config req)) = None ->
           obj_lookup field merged = Some (field_default config field))) /\
       (ownEnumerable (incoming_config req) = [] ->
        merged =
        [("topP", prop (prop config "defaults") "top_p");
         ("topK", prop (prop config "defaults") "top_k");
         ("temperature", prop (prop config "defaults") "temperature");
         ("maxOutputTokens", prop (prop config "defaults") "max_tokens");
         ("candidateCount", VNum 1)])).
Proof.
  split.
  - intros Hacc. eexists. eexists. apply convert_returns. exact Hacc.
  - intros out ids' H. apply convert_result in H. destruct H as [-> _].
    eexists. split; [apply prop_request_generationConfig|]. split.
    + intros field Hin. split.
      * intros v Hv. rewrite obj_lookup_merged_config by exact Hin.
        rewrite Hv. reflexivity.
      * intros Hn. rewrite obj_lookup_merged_config by exact Hin.
        rewrite Hn. reflexivity.
    + intros Hempty. unfold merged_config, spread. rewrite Hempty.
      cbn [obj_set_all fold_left map named_fields].
      rewrite !prop_named_absent by (rewrite ?Hempty; simpl; tauto).
      reflexivity.
Qed.

(** C5, as amended.  The translator returns on every accepted call, and
    whenever it returns, the [request.systemInstruction] of the result
    follows the three branches by truthiness, not by presence: (a) a truthy incoming [systemInstruction] gives
    [{role, parts}] with its [role] when that is truthy and ["user"]
    otherwise, and its [parts] when that is truthy and otherwise the single
    part whose text is the configured instruction text, the empty string
    when that is falsy; (b) without one and with a truthy configured text,
    [{role: "user", parts: [{text: <configured text>}]}]; (c) otherwise
    [{role: "user", parts: [{text: ""}]}]. *)
Theorem systemInstruction_resolution
  (model req token : value) (ids : IdState) :
  (accepted config req token ->
   exists out ids', convert model req token ids = Ok (out, ids')) /\
  (forall out ids',
     convert model req token ids = Ok (out, ids') ->
     let given := prop req "systemInstruction" in
     let configured := prop config "systemInstruction" in
     let final := prop (prop out "request") "systemInstruction" in
     (truthy given = true ->
      final =
      VObj [("role",
             if truthy (prop given "role") then prop given "role"
             else VStr "user");
            ("parts",
             if truthy (prop given "parts") then prop given "parts"
             else VArr [VObj [("text",
                               if truthy configured then configured
                               else VStr "")]])]) /\
     (truthy given = false -> truthy configured = true ->
      final =
      VObj [("role", VStr "user");
            ("parts", VArr [VObj [("text", configured)]])]) /\
     (truthy given = false -> truthy configured = false ->
      final =
      VObj [("role", VStr "user");
            ("parts", VArr [VObj [("text", VStr "")]])])).
Proof.
  split.
  - intros Hacc. eexists. eexists. apply convert_returns. exact Hacc.
  - intros out ids' H. apply convert_result in H. destruct H as [-> _].
    cbv zeta. rewrite prop_request_systemInstruction.
    unfold final_instruction, js_or, default_part. repeat split.
    + intros ->. reflexivity.
    + intros -> ->. reflexivity.
    + intros -> ->. reflexivity.
Qed.


(** C9, as amended.  The translator returns, without throwing, on every
    accepted call: a request and a token that are neither [null] nor
    [undefined], a [generationConfig] that is not [null], a configuration
    module with its [defaults]; a request without any of its optional fields
    and a token without [projectId] or [sessionId] are accepted.  Whenever it
    returns, it has called the identifier supply once and the result is the
    object [{project, requestId, request, model, userAgent: "antigravity"}]
    whose [request] has [contents] (the empty array when the request has
    none), a [generationConfig] object with all five named fields, a
    [systemInstruction] of the shape [{role, parts}] with both truthy, and a
    [sessionId] field.  It returns only when the request and the token are
    neither [null] nor [undefined]. *)
Theorem convert_returns_well_formed
  (model req token : value) (ids : IdState) :
  (accepted config req token ->
   exists out ids', convert model req token ids = Ok (out, ids')) /\
  (forall out ids',
     convert model req token ids = Ok (out, ids') ->
     exists inner,
       out =
       VObj [("project", prop token "projectId");
             ("requestId", fst (generateRequestId ids));
             ("request", VObj inner);
             ("model", model);
             ("userAgent", VStr "antigravity")] /\
       ids' = snd (generateRequestId ids) /\
       obj_lookup "contents" inner =
         Some (if is_undefined (prop req "contents") then VArr []
               else prop req "contents") /\
       (exists merged,
          obj_lookup "generationConfig" inner = Some (VObj merged) /\
          forall field, In field named_fields ->
                        obj_lookup field merged <> None) /\
       (exists role parts,
          obj_lookup "systemInstruction" inner =
            Some (VObj [("role", role); ("parts", parts)]) /\
          truthy role = true /\ truthy parts = true) /\
       obj_lookup "sessionId" inner <> None /\
       nullish req = false /\ nullish token = false).
Proof.
  split.
  - intros Hacc. eexists. eexists. apply convert_returns. exact Hacc.
  - intros out ids' H. apply convert_result in H.
    destruct H as [-> [-> [Hr Ht]]].
    eexists. split; [reflexivity|].
    split; [reflexivity|]. split; [|split; [|split; [|split]]].
    + rewrite obj_lookup_inner_request_fixed by (simpl; tauto). reflexivity.
    + eexists. split.
      * rewrite obj_lookup_inner_request_fixed by (simpl; tauto).
        reflexivity.
      * intros field Hin. rewrite obj_lookup_merged_config by exact Hin.
        destruct (obj_lookup field (ownEnumerable (incoming_config req)));
          discriminate.
    + rewrite obj_lookup_inner_request_fixed by (simpl; tauto).
      cbn [obj_lookup String.eqb Ascii.eqb Bool.eqb fst snd].
      unfold final_instruction, js_or, default_part.
      destruct (truthy (prop req "systemInstruction")).
      * eexists. eexists. split; [reflexivity|]. split.
        -- destruct (truthy (prop (prop req "systemInstruction") "role"))
             eqn:E; [exact E|reflexivity].
        -- destruct (truthy (prop (prop req "systemInstruction") "parts"))
             eqn:E; [exact E|reflexivity].
      * destruct (truthy (prop config "systemInstruction"));
          eexists; eexists; repeat split.
    + unfold inner_request, spread. rewrite obj_lookup_set_all.
      destruct (obj_lookup "sessionId" _); discriminate.
    + split; assumption.
Qed.

(** C10.  When the incoming [generationConfig] maps one of the five named
    keys to [null], the translator returns on every accepted call, and
    whenever it returns, the merged [generationConfig] of the result maps
    that key to [null]: [null ?? default] resolves to the default, and the
    trailing spread of the incoming [generationConfig] then writes the
    explicit [null] over it.  Whatever value the incoming object gives a
    named key is the merged value; the default is the merged value of a key
    the incoming object does not have. *)
Theorem explicit_null_overrides_default
  (model req token : value) (ids : IdState) (g : obj) (field : string) :
  prop req "generationConfig" = VObj g ->
  In field named_fields ->
  obj_lookup field g = Some VNull ->
  (accepted config req token ->
   exists out ids', convert model req token ids = Ok (out, ids')) /\
  (forall out ids',
     convert model req token ids = Ok (out, ids') ->
     exists merged,
       prop (prop out "request") "generationConfig" = VObj merged /\
       obj_lookup field merged = Some VNull /\
       js_coalesce (prop (VObj g) field) (field_default config field) =
         field_default config field /\
       (forall field' v, In field' named_fields ->
          obj_lookup field' g = Some v -> obj_lookup field' merged = Some v)
       /\
       (forall field', In field' named_fields ->
          obj_lookup field' g = None ->
          obj_lookup field' merged = Some (field_default config field'))).
Proof.
  intros Hg Hin Hnull. split.
  - intros Hacc. eexists. eexists. apply convert_returns. exact Hacc.
  - intros out ids' H. apply convert_result in H. destruct H as [-> _].
    eexists. split; [apply prop_request_generationConfig|].
    assert (Hi : incoming_config req = VObj g).
    { unfold incoming_config. rewrite Hg. reflexivity. }
    rewrite Hi. split; [|split; [|split]].
    + rewrite obj_lookup_merged_config by exact Hin.
      cbn [ownEnumerable]. rewrite Hnull. reflexivity.
    + cbn [prop]. unfold obj_get. rewrite Hnull. reflexivity.
    + intros field' v Hin' Hv.
      rewrite obj_lookup_merged_config by exact Hin'.
      cbn [ownEnumerable]. rewrite Hv. reflexivity.
    + intros field' Hin' Hv.
      rewrite obj_lookup_merged_config by exact Hin'.
      cbn [ownEnumerable]. rewrite Hv. reflexivity.
Qed.

End RequestClaims.

(** The partial request of the examples: [temperature] is supplied, [topP]
    and [candidateCount] take their defaults. *)
Lemma merged_generationConfig_resolution_witness :
  exists out ids' merged,
    convertGeminiToAntigravity example_config nat counter_id
      (VStr "m") example_request example_token 0 = Ok (out, ids') /\
    prop (prop out "request") "generationConfig" = VObj merged /\
    obj_lookup "temperature" merged = Some (VNum 0) /\
    obj_lookup "topP" merged = Some (VNum 1) /\
    obj_lookup "candidateCount" merged = Some (VNum 1).
Proof.
  destruct (merged_generationConfig_resolution example_config nat counter_id
              (VStr "m") example_request example_token 0) as [H1 H2].
  destruct H1 as [out [ids' H1]]; [repeat split; discriminate|].
  destruct (H2 out ids' H1) as [merged [H3 [H4 _]]].
  exists out, ids', merged.
  split; [exact H1|]. split; [exact H3|]. split; [|split].
  - apply (H4 "temperature"); [simpl; tauto|reflexivity].
  - destruct (H4 "topP") as [_ H]; [simpl; tauto|]. apply H. reflexivity.
  - destruct (H4 "candidateCount") as [_ H]; [simpl; tauto|].
    apply H. reflexivity.
Defined.

(** Without an incoming instruction and with an empty configured text the
    instruction is the empty-text part with role ["user"]. *)
Lemma systemInstruction_resolution_witness :
  exists out ids',
    convertGeminiToAntigravity example_config nat counter_id
      (VStr "m") example_request example_token 0 = Ok (out, ids') /\
    prop (prop out "request") "systemInstruction" =
    VObj [("role", VStr "user"); ("parts", VArr [VObj [("text", VStr "")]])].
Proof.
  destruct (systemInstruction_resolution example_config nat counter_id
              (VStr "m") example_request example_token 0) as [H1 H2].
  destruct H1 as [out [ids' H1]]; [repeat split; discriminate|].
  destruct (H2 out ids' H1) as [_ [_ H3]].
  exists out, ids'. split; [exact H1|]. apply H3; reflexivity.
Defined.


(** An empty request and an empty token are accepted. *)
Lemma convert_returns_well_formed_witness :
  exists inner,
    convertGeminiToAntigravity example_config nat counter_id
      (VStr "m") (VObj []) (VObj []) 0 =
    Ok (VObj [("project", VUndefined);
              ("requestId", VStr "req-0");
              ("request", VObj inner);
              ("model", VStr "m");
              ("userAgent", VStr "antigravity")], 1) /\
    obj_lookup "contents" inner = Some (VArr []).
Proof.
  destruct (convert_returns_well_formed example_config nat counter_id
              (VStr "m") (VObj []) (VObj []) 0) as [H1 H2].
  destruct H1 as [out [ids' H1]]; [repeat split; discriminate|].
  destruct (H2 out ids' H1) as [inner [Hout [Hids [H3 _]]]].
  exists inner. rewrite H1, Hout, Hids. split; [reflexivity|exact H3].
Defined.

(** C9, as stated, fails: the translator throws a [TypeError] on a request
    that is [null], on a request whose [generationConfig] is [null], and on
    a token that is [undefined]. *)
Lemma convert_throws :
  convertGeminiToAntigravity example_config nat counter_id
    (VStr "m") VNull example_token 0 = Throw TypeError /\
  convertGeminiToAntigravity example_config nat counter_id
    (VStr "m") (VObj [("generationConfig", VNull)]) example_token 0 =
    Throw TypeError /\
  convertGeminiToAntigravity example_config nat counter_id
    (VStr "m") (VObj []) VUndefined 0 = Throw TypeError.
Proof. repeat split. Qed.

(** The example request maps [topK] to [null]. *)
Lemma explicit_null_overrides_default_witness :
  exists out ids' merged,
    convertGeminiToAntigravity example_config nat counter_id
      (VStr "m") example_request example_token 0 = Ok (out, ids') /\
    prop (prop out "request") "generationConfig" = VObj merged /\
    obj_lookup "topK" merged = Some VNull.
Proof.
  destruct (explicit_null_overrides_default example_config nat counter_id
              (VStr "m") example_request example_token 0
              [("temperature", VNum 0); ("topK", VNull)] "topK")
    as [H1 H2]; [reflexivity|simpl; tauto|reflexivity|].
  destruct H1 as [out [ids' H1]]; [repeat split; discriminate|].
  destruct (H2 out ids' H1) as [merged [H3 [H4 _]]].
  exists out, ids', merged. repeat split; assumption.
Defined.

(** C5, as stated, fails: a [role] that is present and empty is replaced by
    ["user"], and a [parts] that is present and [null] is replaced by the
    default part, where the claim uses them "if present". *)
Lemma systemInstruction_not_by_presence :
  (obj_mem "role"
     (ownEnumerable (prop empty_role_request "systemInstruction")) = true /\
   prop (final_instruction_by_presence example_config empty_role_request)
     "role" = VStr "" /\
   exists out ids',
     convertGeminiToAntigravity example_config nat counter_id
       (VStr "m") empty_role_request example_token 0 = Ok (out, ids') /\
     prop (prop (prop out "request") "systemInstruction") "role" =
       VStr "user" /\
     prop (prop out "request") "systemInstruction" <>
       final_instruction_by_presence example_config empty_role_request) /\
  (obj_mem "parts"
     (ownEnumerable (prop null_parts_request "systemInstruction")) = true /\
   prop (final_instruction_by_presence example_config null_parts_request)
     "parts" = VNull /\
   exists out ids',
     convertGeminiToAntigravity example_config nat counter_id
       (VStr "m") null_parts_request example_token 0 = Ok (out, ids') /\
     prop (prop (prop out "request") "systemInstruction") "parts" =
       VArr [VObj [("text", VStr "")]] /\
     prop (prop out "request") "systemInstruction" <>
       final_instruction_by_presence example_config null_parts_request).
Proof.
  split.
  - split; [reflexivity|]. split; [reflexivity|].
    eexists. eexists. split; [reflexivity|].
    split; [reflexivity|]. discriminate.
  - split; [reflexivity|]. split; [reflexivity|].
    eexists. eexists. split; [reflexivity|].
    split; [reflexivity|]. discriminate.
Qed.


(** ** Values in the shape of JSON data *)

Lemma all_digits_string_of_uint (d : uint) :
  all_digits (NilEmpty.string_of_uint d) = true.
Proof. induction d; simpl; auto. Qed.

Lemma values_wf_set (k : string) (v : value) (o : obj) :
  json_wf v -> values_wf o -> values_wf (obj_set k v o).
Proof.
  intros Hv Ho. unfold obj_set. destruct (obj_mem k o).
  - unfold obj_replace, values_wf. apply Forall_map.
    eapply Forall_impl; [|exact Ho].
    intros kv Hkv. destruct (k =? fst kv); assumption.
  - induction Ho as [|kv o Hkv Ho IH]; simpl.
    + constructor; [exact Hv|constructor].
    + destruct (key_le (fst kv) k).
      * constructor; assumption.
      * constructor; [exact Hv|]. constructor; assumption.
Qed.

Lemma values_wf_set_all (props target : obj) :
  values_wf props -> values_wf target ->
  values_wf (obj_set_all props target).
Proof.
  unfold obj_set_all. intros Hp. revert target.
  induction Hp as [|kv props Hkv Hp IH]; intros target Ht; simpl; auto.
  apply IH. apply values_wf_set; assumption.
Qed.

(** *** The sanitizers keep values in the shape of JSON data *)

Lemma obj_lookup_In (k : string) (v : value) (o : obj) :
  obj_lookup k o = Some v -> In (k, v) o.
Proof.
  induction o as [|kv o IH]; simpl; [discriminate|].
  destruct (obj_lookup k o); intros H.
  - right. apply IH. exact H.
  - destruct (k =? fst kv) eqn:E; [|discriminate].
    apply String.eqb_eq in E. inversion H. subst. left.
    destruct kv; reflexivity.
Qed.

Lemma values_wf_lookup (k : string) (v : value) (o : obj) :
  values_wf o -> obj_lookup k o = Some v -> json_wf v.
Proof.
  intros Ho Hl. apply obj_lookup_In in Hl.
  unfold values_wf in Ho. rewrite Forall_forall in Ho.
  apply (Ho (k, v) Hl).
Qed.

Lemma values_wf_indexed (l : list value) (i : N) :
  Forall json_wf l -> values_wf (indexed_from i l).
Proof.
  intros H. revert i. induction H as [|x l Hx Hl IH]; intros i; simpl;
    constructor; [exact Hx|apply IH].
Qed.

Lemma chars_of_wf (s : string) : Forall json_wf (chars_of s).
Proof. induction s; simpl; constructor; auto. constructor. Qed.

Lemma values_wf_own (v : value) :
  json_wf v -> values_wf (ownEnumerable v).
Proof.
  destruct 1; simpl; try constructor.
  - apply values_wf_indexed, chars_of_wf.
  - apply values_wf_indexed. assumption.
  - assumption.
Qed.

Lemma values_wf_spread (v : value) :
  json_wf v -> values_wf (spread [] v).
Proof.
  intros H. apply values_wf_set_all; [apply values_wf_own; exact H|].
  constructor.
Qed.

Lemma values_wf_filter (f : string * value -> bool) (o : obj) :
  values_wf o -> values_wf (filter f o).
Proof.
  unfold values_wf. rewrite !Forall_forall. intros H kv Hin.
  apply filter_In in Hin. apply H. tauto.
Qed.

Lemma values_wf_rest_props (ex : list string) (v : value) :
  json_wf v -> values_wf (rest_props ex v).
Proof.
  intros H. apply values_wf_set_all; [|constructor].
  apply values_wf_filter, values_wf_own. exact H.
Qed.

Lemma json_wf_sanitizePart (p : value) :
  json_wf p -> json_wf (sanitizePart p).
Proof.
  intros H. destruct (is_object p) eqn:E.
  - rewrite sanitizePart_object by exact E. constructor.
    + apply canonical_rest_props.
    + apply values_wf_rest_props. exact H.
  - rewrite sanitizePart_passthrough by exact E. exact H.
Qed.

(** A property read of a well-formed value is well formed or [undefined]. *)
Lemma json_wf_prop (v : value) (k : string) :
  json_wf v -> json_wf (prop v k) \/ prop v k = VUndefined.
Proof.
  intros H. destruct H as [| | |s|l Hl|o Hc Ho]; simpl; auto.
  - destruct (key_index k) as [i|].
    + destruct (nth_in_or_default (N.to_nat i) (chars_of s) VUndefined)
        as [Hin|Hd]; [|auto].
      left. pose proof (chars_of_wf s) as Hs. rewrite Forall_forall in Hs.
      auto.
    + destruct (k =? "length"); [left; constructor|auto].
  - destruct (key_index k) as [i|].
    + destruct (nth_in_or_default (N.to_nat i) l VUndefined)
        as [Hin|Hd]; [|auto].
      left. rewrite Forall_forall in Hl. auto.
    + destruct (k =? "length"); [left; constructor|auto].
  - unfold obj_get. destruct (obj_lookup k o) eqn:E; [|auto].
    left. apply (values_wf_lookup k v o Ho E).
Qed.

Lemma json_wf_prop_truthy (v : value) (k : string) :
  json_wf v -> truthy (prop v k) = true -> json_wf (prop v k).
Proof.
  intros H T. destruct (json_wf_prop v k H) as [Hw|Hu]; [exact Hw|].
  rewrite Hu in T. discriminate.
Qed.

Lemma values_wf_with_index (index : value) (o : obj) :
  json_wf index -> values_wf o -> values_wf (with_index index o).
Proof.
  intros Hi Ho. unfold with_index.
  destruct (is_undefined (obj_get o "index")); [|exact Ho].
  apply values_wf_set; assumption.
Qed.

Lemma values_wf_with_parts (o : obj) :
  values_wf o -> values_wf (with_parts o).
Proof.
  intros Ho. unfold with_parts.
  destruct (prop (obj_get o "content") "parts") as [| | | | |ps|] eqn:P;
    try exact Ho.
  destruct (truthy (obj_get o "content")) eqn:T; [|exact Ho].
  assert (Hc : json_wf (obj_get o "content")).
  { unfold obj_get in *. destruct (obj_lookup "content" o) eqn:E;
      [|discriminate]. apply (values_wf_lookup _ _ _ Ho E). }
  apply values_wf_set; [|exact Ho]. constructor.
  - apply canonical_set, canonical_spread.
  - apply values_wf_set; [|apply values_wf_spread; exact Hc].
    constructor. apply Forall_map.
    destruct (json_wf_prop _ "parts" Hc) as [Hw|Hu];
      [|rewrite Hu in P; discriminate].
    rewrite P in Hw. inversion Hw as [| | | |? Hps|]; subst.
    eapply Forall_impl; [|exact Hps]. intros p. apply json_wf_sanitizePart.
Qed.

Lemma json_wf_sanitizeCandidate (c index r : value) :
  json_wf c -> json_wf index ->
  sanitizeCandidate c index = Ok r -> json_wf r.
Proof.
  intros Hc Hi. destruct (is_object c) eqn:E.
  - rewrite sanitizeCandidate_object by exact E. intros H. inversion H.
    constructor.
    + apply canonical_with_parts, canonical_with_index, canonical_spread.
    + apply values_wf_with_parts, values_wf_with_index; [exact Hi|].
      apply values_wf_spread. exact Hc.
  - rewrite sanitizeCandidate_passthrough by exact E. intros H.
    inversion H. subst. exact Hc.
Qed.

Lemma json_wf_sanitizeCandidates (cs cs' : list value) (i0 : Z) :
  Forall json_wf cs ->
  mapi_from (fun c idx => sanitizeCandidate c (VNum idx)) i0 cs = Ok cs' ->
  Forall json_wf cs'.
Proof.
  intros H. revert i0 cs'.
  induction H as [|c cs Hc Hcs IH]; intros i0 cs'; cbn [mapi_from].
  - intros E. inversion E. constructor.
  - destruct (sanitizeCandidate c (VNum i0)) as [c'|] eqn:Ec; [|discriminate].
    cbn [bind].
    destruct (mapi_from _ (i0 + 1)%Z cs) as [cs''|] eqn:Em; [|discriminate].
    cbn [bind]. intros E. inversion E. subst. constructor.
    + apply (json_wf_sanitizeCandidate c (VNum i0) c' Hc (wf_num i0) Ec).
    + apply (IH _ _ Em).
Qed.

Lemma json_wf_unwrap (d : value) : json_wf d -> json_wf (unwrap d).
Proof.
  intros H. unfold unwrap.
  destruct (truthy d && truthy (prop d "response")) eqn:E; [|exact H].
  apply andb_prop in E. apply json_wf_prop_truthy; tauto.
Qed.

(** *** Extracting what is already extracted *)

Lemma sanitizeCandidates_again (cs cs' : list value) (i0 : Z) :
  mapi_from (fun c idx => sanitizeCandidate c (VNum idx)) i0 cs = Ok cs' ->
  mapi_from (fun c idx => sanitizeCandidate c (VNum idx)) i0 cs' = Ok cs'.
Proof.
  revert i0 cs'. induction cs as [|c cs IH]; intros i0 cs'; cbn [mapi_from].
  - intros E. inversion E. reflexivity.
  - destruct (sanitizeCandidate c (VNum i0)) as [c'|] eqn:Ec; [|discriminate].
    cbn [bind].
    destruct (mapi_from _ (i0 + 1)%Z cs) as [cs''|] eqn:Em; [|discriminate].
    cbn [bind]. intros E. inversion E. subst. cbn [mapi_from].
    rewrite (sanitizeCandidate_again c (VNum i0) c' eq_refl Ec). cbn [bind].
    rewrite (IH _ _ Em). reflexivity.
Qed.

Lemma unwrap_fixed (g : value) :
  truthy (prop g "response") = false -> unwrap g = g.
Proof. unfold unwrap. intros ->. rewrite andb_false_r. reflexivity. Qed.

(** A payload without a truthy [response] is unchanged by a second
    extraction. *)
Lemma extractGeminiResponse_again (d g : value) :
  extractGeminiResponse d = Ok g ->
  truthy (prop g "response") = false ->
  extractGeminiResponse g = Ok g.
Proof.
  rewrite !extractGeminiResponse_unwrap. intros H Hg.
  rewrite (unwrap_fixed g Hg).
  destruct (prop (unwrap d) "candidates") as [| | | | |cs|] eqn:P;
    try (inversion H; subst g; rewrite P; reflexivity).
  unfold sanitizeCandidates in *.
  destruct (mapi_from _ 0%Z cs) as [cs'|] eqn:Em; [|discriminate].
  cbn [bind] in H. inversion H as [Hg']. clear H.
  set (o := obj_set "candidates" (VArr cs') (spread [] (unwrap d))).
  assert (Ho : canonical o) by apply canonical_set, canonical_spread.
  assert (Hl : obj_lookup "candidates" o = Some (VArr cs'))
    by apply obj_lookup_set_eq.
  cbn [prop]. unfold obj_get. rewrite Hl.
  rewrite (sanitizeCandidates_again cs cs' 0 Em). cbn [bind].
  rewrite spread_canonical by exact Ho.
  rewrite obj_set_same by assumption. reflexivity.
Qed.

(** ** Facts about [transformStreamLine] *)

Lemma falsy_prop (d : value) (k : string) :
  truthy d = false -> truthy (prop d k) = false.
Proof.
  destruct d; try reflexivity; try discriminate. simpl.
  intros H. apply negb_false_iff, String.eqb_eq in H. subst.
  simpl. destruct (key_index k) as [i|].
  - destruct (N.to_nat i); reflexivity.
  - destruct (k =? "length"); reflexivity.
Qed.

Lemma startsWith_data (s : string) :
  startsWith ("data: " ++ s)%string "data: " = true.
Proof. reflexivity. Qed.



Lemma size_lookup (k : string) (v : value) (o : obj) :
  obj_lookup k o = Some v -> size v < size (VObj o).
Proof.
  intros H. apply obj_lookup_In in H. cbn [size].
  induction o as [|kv o IH]; [contradiction|].
  cbn [fold_right]. destruct H as [->|H]; [simpl; lia|].
  specialize (IH H). lia.
Qed.

(** Only an object has a truthy [response] or an array of [candidates]. *)
Lemma prop_response_truthy (v : value) :
  truthy (prop v "response") = true -> exists o, v = VObj o.
Proof. destruct v; try discriminate. eauto. Qed.

Lemma prop_candidates_array (v : value) (cs : list value) :
  prop v "candidates" = VArr cs -> exists o, v = VObj o.
Proof. destruct v; try discriminate. eauto. Qed.

(** Extracting from a payload with a truthy [response] changes it. *)
Lemma extractGeminiResponse_unwraps (g g2 : value) :
  truthy (prop g "response") = true ->
  extractGeminiResponse g = Ok g2 -> g2 <> g.
Proof.
  intros Ht. destruct (prop_response_truthy g Ht) as [o ->].
  rewrite extractGeminiResponse_unwrap. unfold unwrap. rewrite Ht.
  cbn [truthy andb].
  assert (Hl : obj_lookup "response" o = Some (prop (VObj o) "response")).
  { cbn [prop] in *. unfold obj_get in *.
    destruct (obj_lookup "response" o); [reflexivity|discriminate]. }
  remember (prop (VObj o) "response") as x eqn:Ex. clear Ex Ht.
  pose proof (size_lookup _ _ _ Hl) as Hsize.
  destruct (prop x "candidates") as [| | | | |cs|] eqn:P;
    try (intros E; inversion E; subst g2; intros Heq; rewrite Heq in Hsize;
         lia).
  destruct (prop_candidates_array x cs P) as [ox ->].
  destruct (sanitizeCandidates cs) as [cs'|]; [|discriminate].
  cbn [bind]. intros E. inversion E. subst g2. intros Heq.
  inversion Heq as [Ho].
  rewrite <- Ho in Hl. rewrite obj_lookup_set_neq in Hl by discriminate.
  rewrite obj_lookup_spread in Hl. cbn [ownEnumerable] in Hl.
  pose proof (size_lookup _ _ _ Hl) as Hs2. lia.
Qed.

Lemma nullish_extract (d g : value) :
  nullish d = false -> extractGeminiResponse d = Ok g -> nullish g = false.
Proof.
  intros Hd. rewrite extractGeminiResponse_unwrap.
  assert (Hu : nullish (unwrap d) = false).
  { unfold unwrap.
    destruct (truthy d && truthy (prop d "response")) eqn:T; [|exact Hd].
    apply andb_prop in T. apply truthy_not_nullish. tauto. }
  destruct (prop (unwrap d) "candidates");
    try (intros E; inversion E; subst; exact Hu).
  destruct (sanitizeCandidates l); [|discriminate].
  intros E. inversion E. reflexivity.
Qed.

Section StreamFacts.

Variable JSON_parse : string -> result value.
Variable JSON_stringify : value -> result (option string).

Local Abbreviation transform :=
  (transformStreamLine JSON_parse JSON_stringify).

Lemma transformStreamLine_plain (line : string) :
  startsWith line "data: " = false -> transform line = Ok line.
Proof. unfold transformStreamLine. intros ->. reflexivity. Qed.

Lemma transformStreamLine_malformed (line : string) (e : error) :
  startsWith line "data: " = true ->
  JSON_parse (slice 6 line) = Throw e ->
  transform line = Ok line.
Proof. unfold transformStreamLine. intros -> ->. reflexivity. Qed.

Lemma transformStreamLine_nullish (line : string) (d : value) :
  startsWith line "data: " = true ->
  JSON_parse (slice 6 line) = Ok d -> nullish d = true ->
  transform line = Ok line.
Proof.
  unfold transformStreamLine, getProp. intros -> -> H. cbn [negb bind].
  rewrite H. reflexivity.
Qed.

(** On a data line whose payload [d] is neither [null] nor [undefined], the
    [try] block extracts as [extractGeminiResponse] does and prints. *)
Lemma transformStreamLine_data (line : string) (d : value) :
  startsWith line "data: " = true ->
  JSON_parse (slice 6 line) = Ok d -> nullish d = false ->
  transform line =
  try_catch
    (g <- extractGeminiResponse d ;;
     text <- JSON_stringify g ;;
     Ok ("data: " ++ template_text text)%string)
    (fun _ => Ok line).
Proof.
  intros Hs Hp Hd. unfold transformStreamLine. rewrite Hs, Hp.
  cbn [negb bind]. f_equal.
  rewrite extractGeminiResponse_unwrap, (getProp_defined d _ Hd).
  cbn [bind]. unfold unwrap.
  destruct (truthy (prop d "response")) eqn:T.
  - assert (Td : truthy d = true).
    { destruct (truthy d) eqn:Td; [reflexivity|].
      rewrite (falsy_prop d "response" Td) in T. discriminate. }
    rewrite Td. cbn [andb bind].
    rewrite (getProp_truthy _ "candidates" T). cbn [bind].
    destruct (prop (prop d "response") "candidates") as [| |b|n|s|l|o];
      cbn [truthy]; try reflexivity;
      try (destruct b; reflexivity);
      try (destruct (negb _); reflexivity).
  - rewrite andb_false_r. cbn [bind].
    rewrite (getProp_defined d "candidates" Hd). cbn [bind].
    destruct (prop d "candidates") as [| |b|n|s|l|o];
      cbn [truthy]; try reflexivity;
      try (destruct b; reflexivity);
      try (destruct (negb _); reflexivity).
Qed.

Lemma transformStreamLine_printed (line : string) (d g : value)
  (text : option string) :
  startsWith line "data: " = true ->
  JSON_parse (slice 6 line) = Ok d -> nullish d = false ->
  extractGeminiResponse d = Ok g -> JSON_stringify g = Ok text ->
  transform line = Ok ("data: " ++ template_text text)%string.
Proof.
  intros Hs Hp Hd Hg Ht.
  rewrite (transformStreamLine_data line d Hs Hp Hd), Hg. cbn [bind].
  rewrite Ht. reflexivity.
Qed.

Lemma transformStreamLine_unprinted (line : string) (d g : value)
  (e : error) :
  startsWith line "data: " = true ->
  JSON_parse (slice 6 line) = Ok d -> nullish d = false ->
  extractGeminiResponse d = Ok g -> JSON_stringify g = Throw e ->
  transform line = Ok line.
Proof.
  intros Hs Hp Hd Hg Ht.
  rewrite (transformStreamLine_data line d Hs Hp Hd), Hg. cbn [bind].
  rewrite Ht. reflexivity.
Qed.

(** The cases of a call, with the payload that is read and extracted. *)
Lemma transformStreamLine_cases (line : string) :
  (transform line = Ok line /\
   (startsWith line "data: " = false \/
    (exists e, JSON_parse (slice 6 line) = Throw e) \/
    (exists d, JSON_parse (slice 6 line) = Ok d /\ nullish d = true) \/
    (exists d g e,
       JSON_parse (slice 6 line) = Ok d /\ nullish d = false /\
       extractGeminiResponse d = Ok g /\ JSON_stringify g = Throw e))) \/
  (exists d g text,
     startsWith line "data: " = true /\
     JSON_parse (slice 6 line) = Ok d /\ nullish d = false /\
     extractGeminiResponse d = Ok g /\ JSON_stringify g = Ok text /\
     transform line = Ok ("data: " ++ template_text text)%string).
Proof.
  destruct (startsWith line "data: ") eqn:Hs;
    [|left; split; [apply transformStreamLine_plain; exact Hs|auto]].
  destruct (JSON_parse (slice 6 line)) as [d|e] eqn:Hp.
  2:{ left. split; [apply (transformStreamLine_malformed line e Hs Hp)|].
      right. left. eauto. }
  destruct (nullish d) eqn:Hd.
  { left. split; [apply (transformStreamLine_nullish line d Hs Hp Hd)|].
    right. right. left. eauto. }
  destruct (extractGeminiResponse_total d) as [g Hg].
  destruct (JSON_stringify g) as [text|e] eqn:Ht.
  - right. exists d, g, text. repeat (split; [auto; fail|]).
    apply (transformStreamLine_printed line d g text Hs Hp Hd Hg Ht).
  - left.
    split; [apply (transformStreamLine_unprinted line d g e Hs Hp Hd Hg Ht)|].
    right. right. right. exists d, g, e. auto.
Qed.

Lemma transformStreamLine_total (line : string) :
  exists out, transform line = Ok out.
Proof.
  destruct (transformStreamLine_cases line)
    as [[H _]|[d [g [text [_ [_ [_ [_ [_ H]]]]]]]]]; eauto.
Qed.

(** C3, as amended.  [transformStreamLine(line)] never throws.  It returns
    the line itself when the line does not begin with ["data: "] and
    whenever the [try] block throws: when [JSON.parse] throws on the rest of
    the line, when the rest parses to [null] (reading [null.response] throws
    a [TypeError]), and when [JSON.stringify] throws on the payload to
    emit.  In every other case, the rest having parsed to a value [d], the
    result is ["data: "] followed by the text that [JSON.stringify] gives
    the payload that [extractGeminiResponse(d)] returns: the same unwrap and
    the same sanitizing of the candidates by position.  [JSON.parse] and
    [JSON.stringify] are the library's, whatever they do. *)
Theorem transformStreamLine_spec (line : string) :
  (exists out, transform line = Ok out) /\
  (startsWith line "data: " = false -> transform line = Ok line) /\
  (forall e,
     startsWith line "data: " = true ->
     JSON_parse (slice 6 line) = Throw e ->
     transform line = Ok line) /\
  (forall d,
     startsWith line "data: " = true ->
     JSON_parse (slice 6 line) = Ok d -> nullish d = true ->
     transform line = Ok line) /\
  (forall d,
     startsWith line "data: " = true ->
     JSON_parse (slice 6 line) = Ok d -> nullish d = false ->
     exists g,
       extractGeminiResponse d = Ok g /\
       (forall e, JSON_stringify g = Throw e -> transform line = Ok line) /\
       (forall text,
          JSON_stringify g = Ok text ->
          transform line = Ok ("data: " ++ template_text text)%string)).
Proof.
  split; [apply transformStreamLine_total|].
  split; [apply transformStreamLine_plain|].
  split; [intros e; apply transformStreamLine_malformed|].
  split; [intros d; apply transformStreamLine_nullish|].
  intros d Hs Hp Hd.
  destruct (extractGeminiResponse_total d) as [g Hg]. exists g.
  split; [exact Hg|]. split.
  - intros e. apply (transformStreamLine_unprinted line d g e Hs Hp Hd Hg).
  - intros text.
    apply (transformStreamLine_printed line d g text Hs Hp Hd Hg).
Qed.

(** The second pass over a line that the first pass has rewritten, when the
    library reads the emitted text back as the emitted payload. *)
Lemma transformStreamLine_second (g g2 : value) (text : string)
  (text2 : option string) :
  nullish g = false -> JSON_parse text = Ok g ->
  extractGeminiResponse g = Ok g2 -> JSON_stringify g2 = Ok text2 ->
  transform ("data: " ++ text)%string =
  Ok ("data: " ++ template_text text2)%string.
Proof.
  intros Hn Hp Hg Ht.
  apply (transformStreamLine_printed _ g g2 text2 (startsWith_data text));
    assumption.
Qed.

(** C8, as amended.  [transformStreamLine] always returns, and a second pass
    over a line that the first pass returned as it is returns it again.  On
    a data line that the first pass rewrites, with the text it emits read
    back by the library as the payload [g] that was emitted: the second pass
    returns the first result again when [g] has no truthy [response]; when
    [g] has one, an envelope inside the envelope, the second pass unwraps
    once more, and where the library prints that payload to a text it reads
    back, the second result is that text and is not the first. *)
Theorem transformStreamLine_idempotent (line : string) :
  exists out,
    transform line = Ok out /\
    (out = line -> transform out = Ok out) /\
    (forall d g text,
       startsWith line "data: " = true ->
       JSON_parse (slice 6 line) = Ok d -> nullish d = false ->
       extractGeminiResponse d = Ok g ->
       JSON_stringify g = Ok (Some text) ->
       JSON_parse text = Ok g ->
       out = ("data: " ++ text)%string /\
       (truthy (prop g "response") = false -> transform out = Ok out) /\
       (truthy (prop g "response") = true ->
        forall g2 text2,
          extractGeminiResponse g = Ok g2 ->
          JSON_stringify g2 = Ok (Some text2) ->
          JSON_parse text2 = Ok g2 ->
          transform out = Ok ("data: " ++ text2)%string /\
          transform out <> Ok out)).
Proof.
  destruct (transformStreamLine_total line) as [out Hout]. exists out.
  split; [exact Hout|]. split; [intros ->; exact Hout|].
  intros d g text Hs Hp Hd Hg Ht Hback.
  pose proof (transformStreamLine_printed line d g (Some text)
                Hs Hp Hd Hg Ht) as H1.
  cbn [template_text] in H1.
  assert (Eo : out = ("data: " ++ text)%string) by congruence.
  pose proof (nullish_extract d g Hd Hg) as Hn.
  split; [exact Eo|]. rewrite Eo. split.
  - intros Hr.
    apply (transformStreamLine_second g g text (Some text) Hn Hback);
      [|exact Ht].
    apply (extractGeminiResponse_again d g Hg Hr).
  - intros Hr g2 text2 Hg2 Ht2 Hback2.
    pose proof (transformStreamLine_second g g2 text (Some text2)
                  Hn Hback Hg2 Ht2) as H2.
    cbn [template_text] in H2. split; [exact H2|].
    rewrite H2. intros E.
    assert (Et : text2 = text).
    { simpl in E. inversion E. reflexivity. }
    subst text2. rewrite Hback in Hback2. inversion Hback2 as [Eg].
    apply (extractGeminiResponse_unwraps g g2 Hr Hg2). symmetry. exact Eg.
Qed.

End StreamFacts.

(** The lines of the specification's examples, a sentinel and a line whose
    payload is [null]. *)
Lemma transformStreamLine_spec_witness :
  transformStreamLine example_parse example_stringify "not a data line" =
    Ok "not a data line" /\
  transformStreamLine example_parse example_stringify "data: {not json" =
    Ok "data: {not json" /\
  transformStreamLine example_parse example_stringify "data: [DONE]" =
    Ok "data: [DONE]" /\
  transformStreamLine example_parse example_stringify null_line =
    Ok null_line /\
  transformStreamLine example_parse example_stringify spec_stream_line =
    Ok spec_stream_result.
Proof.
  split; [|split; [|split; [|split]]].
  - destruct (transformStreamLine_spec example_parse example_stringify
                "not a data line") as [_ [H _]].
    apply H. reflexivity.
  - destruct (transformStreamLine_spec example_parse example_stringify
                "data: {not json") as [_ [_ [H _]]].
    apply (H SyntaxError); reflexivity.
  - destruct (transformStreamLine_spec example_parse example_stringify
                "data: [DONE]") as [_ [_ [H _]]].
    apply (H SyntaxError); reflexivity.
  - destruct (transformStreamLine_spec example_parse example_stringify
                null_line) as [_ [_ [_ [H _]]]].
    apply (H VNull); reflexivity.
  - destruct (transformStreamLine_spec example_parse example_stringify
                spec_stream_line) as [_ [_ [_ [_ H]]]].
    destruct (H spec_stream_payload eq_refl eq_refl eq_refl)
      as [g [Hg [_ Hout]]].
    vm_compute in Hg. inversion Hg. subst g.
    apply (Hout (Some (slice 6 spec_stream_result))). reflexivity.
Defined.

(** C3, as stated, fails: the rest of [null_line] parses (to [null]), so the
    result should be ["data: "] followed by the text of the unwrapped and
    sanitized payload, which is ["data: null"]; the code returns the line as
    it is, with its white space. *)
Lemma transformStreamLine_null_payload :
  startsWith null_line "data: " = true /\
  example_parse (slice 6 null_line) = Ok VNull /\
  extractGeminiResponse VNull = Ok VNull /\
  example_stringify VNull = Ok (Some "null") /\
  transformStreamLine example_parse example_stringify null_line =
    Ok null_line /\
  transformStreamLine example_parse example_stringify null_line <>
    Ok "data: null".
Proof.
  repeat split. discriminate.
Qed.

(** The specification's data line, whose result is returned again by a
    second pass, and the line with an envelope inside its envelope, whose
    second pass unwraps once more. *)
Lemma transformStreamLine_idempotent_witness :
  (transformStreamLine example_parse example_stringify spec_stream_line =
     Ok spec_stream_result /\
   transformStreamLine example_parse example_stringify spec_stream_result =
     Ok spec_stream_result) /\
  (transformStreamLine example_parse example_stringify nested_line =
     Ok (q "data: {'response':{'candidates':[]}}") /\
   transformStreamLine example_parse example_stringify
     (q "data: {'response':{'candidates':[]}}") =
     Ok (q "data: {'candidates':[]}")).
Proof.
  split.
  - destruct (transformStreamLine_idempotent example_parse example_stringify
                spec_stream_line) as [out [H1 [_ H2]]].
    destruct (H2 spec_stream_payload spec_stream_extracted
                (slice 6 spec_stream_result)
                eq_refl eq_refl eq_refl eq_refl eq_refl eq_refl)
      as [Eo [H3 _]].
    rewrite Eo in H1, H3. split; [exact H1|]. apply H3. reflexivity.
  - destruct (transformStreamLine_idempotent example_parse example_stringify
                nested_line) as [out [H1 [_ H2]]].
    destruct (H2 (VObj [("response",
                         VObj [("response",
                                VObj [("candidates", VArr [])])])])
                (VObj [("response", VObj [("candidates", VArr [])])])
                (q "{'response':{'candidates':[]}}")
                eq_refl eq_refl eq_refl eq_refl eq_refl eq_refl)
      as [Eo [_ H3]].
    rewrite Eo in H1, H3. split; [exact H1|].
    apply (H3 eq_refl (VObj [("candidates", VArr [])])
             (q "{'candidates':[]}") eq_refl eq_refl eq_refl).
Defined.

(** C8, as stated, fails: each pass removes one envelope, so the second pass
    over the line with an envelope inside its envelope gives another
    line. *)
Lemma transformStreamLine_not_idempotent :
  transformStreamLine example_parse example_stringify nested_line =
    Ok (q "data: {'response':{'candidates':[]}}") /\
  transformStreamLine example_parse example_stringify
    (q "data: {'response':{'candidates':[]}}") =
    Ok (q "data: {'candidates':[]}") /\
  (out <- transformStreamLine example_parse example_stringify nested_line ;;
   transformStreamLine example_parse example_stringify out) <>
  transformStreamLine example_parse example_stringify nested_line.
Proof.
  repeat split. discriminate.
Qed.

(** * Further properties *)

(** ** The model catalogue *)

Lemma convertToGeminiModelList_defined (r : value) :
  nullish r = false ->
  convertToGeminiModelList r =
  Ok (VObj [("models", VArr (map model_entry (registry_ids r)))]).
Proof.
  intros Hr. unfold convertToGeminiModelList, registry_ids.
  rewrite (getProp_defined r "models" Hr). cbn [bind].
  unfold Object_keys, js_or.
  destruct (truthy (prop r "models")) eqn:T.
  - rewrite (truthy_not_nullish _ T). reflexivity.
  - reflexivity.
Qed.

Lemma convertToGeminiModelList_Ok (r out : value) :
  convertToGeminiModelList r = Ok out ->
  nullish r = false /\
  out = VObj [("models", VArr (map model_entry (registry_ids r)))].
Proof.
  intros H. destruct (nullish r) eqn:Hr.
  - unfold convertToGeminiModelList, getProp in H. rewrite Hr in H.
    discriminate.
  - rewrite (convertToGeminiModelList_defined r Hr) in H. inversion H. auto.
Qed.

(** X1.  On a registry that is neither [null] nor [undefined],
    [convertToGeminiModelList] returns [{models: entries}] with one entry
    per key of [internalModels.models || {}], in key order; the entry of the
    key [id] has exactly the seven fields [name] (["models/" + id]),
    [version] (["001"]), [displayName] ([id]), [description] (["Model " +
    id]), [inputTokenLimit] (1048576), [outputTokenLimit] (8192) and
    [supportedGenerationMethods] (the two method names). *)
Theorem convertToGeminiModelList_entries (r : value) :
  nullish r = false ->
  exists entries,
    convertToGeminiModelList r = Ok (VObj [("models", VArr entries)]) /\
    List.length entries = List.length (registry_ids r) /\
    forall n id,
      nth_error (registry_ids r) n = Some id ->
      exists e,
        nth_error entries n = Some (VObj e) /\
        map fst e = entry_keys /\
        obj_lookup "name" e = Some (VStr ("models/" ++ id)%string) /\
        obj_lookup "version" e = Some (VStr "001") /\
        obj_lookup "displayName" e = Some (VStr id) /\
        obj_lookup "description" e = Some (VStr ("Model " ++ id)%string) /\
        obj_lookup "inputTokenLimit" e = Some (VNum 1048576) /\
        obj_lookup "outputTokenLimit" e = Some (VNum 8192) /\
        obj_lookup "supportedGenerationMethods" e =
          Some (VArr [VStr "generateContent"; VStr "streamGenerateContent"]).
Proof.
  intros Hr. exists (map model_entry (registry_ids r)).
  split; [apply convertToGeminiModelList_defined; exact Hr|].
  split; [apply length_map|].
  intros n id Hn. eexists. split.
  - rewrite nth_error_map, Hn. reflexivity.
  - repeat split.
Qed.

Lemma convertToGeminiModelList_entries_witness :
  exists entries e,
    convertToGeminiModelList example_registry =
      Ok (VObj [("models", VArr entries)]) /\
    List.length entries = 2 /\
    nth_error entries 1 = Some (VObj e) /\
    obj_lookup "name" e = Some (VStr "models/claude-sonnet").
Proof.
  destruct (convertToGeminiModelList_entries example_registry eq_refl)
    as [entries [H1 [H2 H3]]].
  destruct (H3 1 "claude-sonnet" eq_refl) as [e [H4 [_ [H5 _]]]].
  exists entries, e. repeat split; assumption.
Defined.

(** X2.  [convertToGeminiModelList] throws, a [TypeError], exactly on a
    registry that is [null] or [undefined].  On any other registry the
    catalogue is empty exactly when [internalModels.models || {}] has no
    own enumerable property, as when [models] is missing, [null], an empty
    object, a number or a boolean. *)
Theorem convertToGeminiModelList_empty (r : value) :
  (nullish r = true <-> convertToGeminiModelList r = Throw TypeError) /\
  (nullish r = false ->
   (registry_ids r = [] <->
    convertToGeminiModelList r = Ok (VObj [("models", VArr [])]))) /\
  (truthy (prop r "models") = false -> registry_ids r = []) /\
  (forall b, prop r "models" = VBool b -> registry_ids r = []) /\
  (forall n, prop r "models" = VNum n -> registry_ids r = []).
Proof.
  split; [|split; [|split; [|split]]].
  - split.
    + intros Hr. unfold convertToGeminiModelList, getProp. rewrite Hr.
      reflexivity.
    + intros H. destruct (nullish r) eqn:Hr; [reflexivity|].
      rewrite (convertToGeminiModelList_defined r Hr) in H. discriminate.
  - intros Hr. rewrite (convertToGeminiModelList_defined r Hr). split.
    + intros ->. reflexivity.
    + intros H. inversion H as [Hm].
      destruct (registry_ids r); [reflexivity|discriminate].
  - intros T. unfold registry_ids, js_or. rewrite T. reflexivity.
  - intros b H. unfold registry_ids, js_or. rewrite H.
    destruct b; reflexivity.
  - intros n H. unfold registry_ids, js_or. rewrite H. cbn [truthy].
    destruct (negb (n =? 0)%Z); reflexivity.
Qed.

Lemma convertToGeminiModelList_empty_witness :
  convertToGeminiModelList VUndefined = Throw TypeError /\
  convertToGeminiModelList (VObj []) = Ok (VObj [("models", VArr [])]) /\
  convertToGeminiModelList (VObj [("models", VNum 7)]) =
    Ok (VObj [("models", VArr [])]).
Proof.
  split; [|split].
  - apply (proj1 (convertToGeminiModelList_empty VUndefined)). reflexivity.
  - destruct (convertToGeminiModelList_empty (VObj []))
      as [_ [H [H0 _]]].
    apply H; [reflexivity|]. apply H0. reflexivity.
  - destruct (convertToGeminiModelList_empty (VObj [("models", VNum 7)]))
      as [_ [H [_ [_ H0]]]].
    apply H; [reflexivity|]. apply (H0 7%Z). reflexivity.
Defined.

Lemma NoDup_map_injective {A B : Type} (f : A -> B) (l : list A) :
  (forall x y, f x = f y -> x = y) -> NoDup l -> NoDup (map f l).
Proof.
  intros Hf H. induction H as [|x l Hx Hl IH]; simpl; constructor; auto.
  intros Hin. apply in_map_iff in Hin. destruct Hin as [y [Hy Hin]].
  apply Hf in Hy. subst. contradiction.
Qed.

(** X3.  In every catalogue that [convertToGeminiModelList] returns, each
    entry belongs to a key [id] of the registry, its [displayName] is that
    key, its [name] is ["models/"] followed by its [displayName] (so that
    [name.slice(7)] gives the key back) and its [description] is ["Model "]
    followed by it; and when the registry keys are pairwise distinct, so are
    the names of the entries. *)
Theorem catalogue_names (r : value) (entries : list value) :
  convertToGeminiModelList r = Ok (VObj [("models", VArr entries)]) ->
  (forall e, In e entries ->
     exists id,
       In id (registry_ids r) /\
       prop e "displayName" = VStr id /\
       prop e "name" = VStr ("models/" ++ id)%string /\
       prop e "description" = VStr ("Model " ++ id)%string /\
       slice 7 ("models/" ++ id)%string = id) /\
  (NoDup (registry_ids r) -> NoDup (map (fun e => prop e "name") entries)).
Proof.
  intros H. apply convertToGeminiModelList_Ok in H. destruct H as [_ H].
  inversion H as [He]. clear H. split.
  - intros e Hin. apply in_map_iff in Hin. destruct Hin as [id [<- Hin]].
    exists id. repeat split. exact Hin.
  - intros Hnd. rewrite map_map. apply NoDup_map_injective; [|exact Hnd].
    intros x y Hxy. cbn in Hxy. inversion Hxy. reflexivity.
Qed.

Lemma catalogue_names_witness :
  exists entries,
    convertToGeminiModelList example_registry =
      Ok (VObj [("models", VArr entries)]) /\
    NoDup (map (fun e => prop e "name") entries).
Proof.
  exists (map model_entry (registry_ids example_registry)).
  split; [reflexivity|].
  apply (catalogue_names example_registry); [reflexivity|].
  repeat constructor; simpl; intuition discriminate.
Defined.

Lemma json_wf_model_entry (id : string) : json_wf (model_entry id).
Proof.
  unfold model_entry. constructor.
  - unfold canonical. cbn [keys map fst ordered_keys].
    repeat split; try (simpl; intuition discriminate);
      repeat (constructor; try reflexivity).
  - repeat (constructor; try (cbn [snd]; repeat constructor)).
Qed.

(** X4.  Every catalogue that [convertToGeminiModelList] returns is in the
    shape of JSON data, whatever the registry is: it has no [undefined]
    inside, and each of its objects has its properties in property order. *)
Theorem catalogue_well_formed (r out : value) :
  convertToGeminiModelList r = Ok out -> json_wf out.
Proof.
  intros H. apply convertToGeminiModelList_Ok in H. destruct H as [_ ->].
  constructor.
  - unfold canonical. simpl. repeat split; auto.
  - constructor; [|constructor]. cbn [snd]. constructor.
    apply Forall_map. apply Forall_forall. intros id _.
    apply json_wf_model_entry.
Qed.

Lemma catalogue_well_formed_witness :
  json_wf (VObj [("models",
                  VArr (map model_entry (registry_ids example_registry)))]).
Proof.
  apply (catalogue_well_formed example_registry). reflexivity.
Defined.

(** ** The response side *)

Lemma sanitizeCandidate_Ok (c index c' : value) :
  sanitizeCandidate c index = Ok c' ->
  (is_object c = false /\ c' = c) \/
  (is_object c = true /\
   c' = VObj (with_parts (with_index index (spread [] c)))).
Proof.
  destruct (is_object c) eqn:E.
  - rewrite sanitizeCandidate_object by exact E. intros H. inversion H. auto.
  - rewrite sanitizeCandidate_passthrough by exact E. intros H.
    inversion H. auto.
Qed.

Lemma sanitizeCandidates_nth (cs cs' : list value) (i0 : Z) :
  mapi_from (fun c idx => sanitizeCandidate c (VNum idx)) i0 cs = Ok cs' ->
  forall n c', nth_error cs' n = Some c' ->
    exists c, nth_error cs n = Some c /\
              sanitizeCandidate c (VNum (i0 + Z.of_nat n)) = Ok c'.
Proof.
  intros H.
  destruct (sanitizeCandidates_from cs i0) as [cs2 [H1 [H2 H3]]].
  rewrite H1 in H. inversion H. subst cs2. clear H.
  intros n c' Hn.
  destruct (nth_error cs n) as [c|] eqn:E.
  - exists c. split; [reflexivity|].
    destruct (H3 n c E) as [c2 [Hc2 Hs]]. congruence.
  - apply nth_error_None in E.
    assert (n < List.length cs') by (apply nth_error_Some; congruence).
    lia.
Qed.

(** What [extractGeminiResponse] returns when its result has an array of
    candidates: the candidates of the payload, sanitized by position. *)
Lemma extractGeminiResponse_candidates (r g : value) (cs' : list value) :
  extractGeminiResponse r = Ok g -> prop g "candidates" = VArr cs' ->
  exists cs,
    prop (unwrap r) "candidates" = VArr cs /\
    sanitizeCandidates cs = Ok cs'.
Proof.
  rewrite extractGeminiResponse_unwrap. intros H Hg.
  destruct (prop (unwrap r) "candidates") as [| | | | |cs|] eqn:P;
    try (inversion H; subst g; congruence).
  exists cs. split; [reflexivity|].
  destruct (sanitizeCandidates cs) as [cs2|]; [|discriminate].
  cbn [bind] in H. inversion H. subst g. cbn [prop] in Hg.
  rewrite obj_get_set in Hg. cbn in Hg. congruence.
Qed.

(** X5.  In the result of [extractGeminiResponse], every candidate that is
    an object has a defined [index]: its own one when the original candidate
    had one, and otherwise its position in the array. *)
Theorem extracted_candidates_indexed (r g : value) (cs' : list value) :
  extractGeminiResponse r = Ok g ->
  prop g "candidates" = VArr cs' ->
  forall n c',
    nth_error cs' n = Some c' -> is_object c' = true ->
    is_undefined (prop c' "index") = false /\
    exists cs c,
      prop (unwrap r) "candidates" = VArr cs /\
      nth_error cs n = Some c /\
      prop c' "index" =
        (if is_undefined (obj_get (ownEnumerable c) "index")
         then VNum (Z.of_nat n)
         else obj_get (ownEnumerable c) "index").
Proof.
  intros H Hg n c' Hn Hobj.
  destruct (extractGeminiResponse_candidates r g cs' H Hg) as [cs [P Hs]].
  destruct (sanitizeCandidates_nth cs cs' 0 Hs n c' Hn) as [c [Hc Hsc]].
  rewrite Z.add_0_l in Hsc.
  apply sanitizeCandidate_Ok in Hsc.
  destruct Hsc as [[E ->]|[E ->]]; [congruence|].
  cbn [prop]. rewrite obj_get_with_parts_index. split.
  - apply with_index_defined. reflexivity.
  - exists cs, c. split; [exact P|]. split; [exact Hc|].
    rewrite obj_get_with_index, obj_get_spread. reflexivity.
Qed.

Lemma extracted_candidates_indexed_witness :
  is_undefined (prop (VObj [("index", VNum 0)]) "index") = false /\
  is_undefined (prop (VObj [("index", VNum 7)]) "index") = false.
Proof.
  split.
  - apply (extracted_candidates_indexed
             (VObj [("response",
                     VObj [("candidates",
                            VArr [VObj []; VNull;
                                  VObj [("index", VNum 7)]])])])
             (VObj [("candidates",
                     VArr [VObj [("index", VNum 0)]; VNull;
                           VObj [("index", VNum 7)]])])
             [VObj [("index", VNum 0)]; VNull; VObj [("index", VNum 7)]]
             eq_refl eq_refl 0 _ eq_refl eq_refl).
  - apply (extracted_candidates_indexed
             (VObj [("response",
                     VObj [("candidates",
                            VArr [VObj []; VNull;
                                  VObj [("index", VNum 7)]])])])
             (VObj [("candidates",
                     VArr [VObj [("index", VNum 0)]; VNull;
                           VObj [("index", VNum 7)]])])
             [VObj [("index", VNum 0)]; VNull; VObj [("index", VNum 7)]]
             eq_refl eq_refl 2 _ eq_refl eq_refl).
Defined.

Lemma indexed_keys_digits (l : list value) (i : N) (kv : string * value) :
  In kv (indexed_from i l) -> all_digits (fst kv) = true.
Proof.
  revert i. induction l as [|x l IH]; intros i; simpl; [contradiction|].
  intros [<-|H]; [apply all_digits_string_of_uint|apply (IH _ H)].
Qed.

Lemma obj_lookup_indexed_name (k : string) (l : list value) (i : N) :
  all_digits k = false -> obj_lookup k (indexed_from i l) = None.
Proof.
  intros Hk. destruct (obj_lookup k (indexed_from i l)) eqn:E; [|reflexivity].
  apply obj_lookup_In in E. apply indexed_keys_digits in E. simpl in E.
  congruence.
Qed.

Lemma sanitizePart_no_thoughtSignature (p : value) :
  obj_lookup "thoughtSignature" (ownEnumerable (sanitizePart p)) = None.
Proof.
  destruct (is_object p) eqn:E.
  - rewrite sanitizePart_object by exact E. cbn [ownEnumerable].
    rewrite obj_lookup_rest_props. reflexivity.
  - rewrite sanitizePart_passthrough by exact E.
    destruct p; try reflexivity; try discriminate.
    cbn [ownEnumerable]. apply obj_lookup_indexed_name. reflexivity.
Qed.

(** X6.  In the result of [extractGeminiResponse], no part of a candidate's
    [content.parts] array has a [thoughtSignature] property. *)
Theorem extracted_parts_without_thoughtSignature
  (r g : value) (cs' ps' : list value) (c' p' : value) :
  extractGeminiResponse r = Ok g ->
  prop g "candidates" = VArr cs' ->
  In c' cs' ->
  prop (prop c' "content") "parts" = VArr ps' ->
  In p' ps' ->
  obj_lookup "thoughtSignature" (ownEnumerable p') = None /\
  prop p' "thoughtSignature" = VUndefined.
Proof.
  intros H Hg Hc Hps Hp.
  assert (Hown : obj_lookup "thoughtSignature" (ownEnumerable p') = None).
  { destruct (extractGeminiResponse_candidates r g cs' H Hg) as [cs [P Hs]].
    apply In_nth_error in Hc. destruct Hc as [n Hn].
    destruct (sanitizeCandidates_nth cs cs' 0 Hs n c' Hn) as [c [Hc Hsc]].
    apply sanitizeCandidate_Ok in Hsc.
    destruct Hsc as [[E ->]|[E ->]].
    - exfalso. pose proof (prop_parts_array _ _ Hps) as T.
      destruct c; try discriminate.
    - set (o := with_index (VNum (0 + Z.of_nat n)) (spread [] c)) in *.
      cbn [prop] in Hps.
      destruct (truthy (obj_get o "content")) eqn:T.
      + destruct (prop (obj_get o "content") "parts") as [| | | | |ps|] eqn:Q;
          try (rewrite with_parts_other in Hps
                 by (left; rewrite Q; reflexivity);
               congruence).
        rewrite (with_parts_array o ps Q T) in Hps.
        rewrite obj_get_set in Hps. cbn in Hps.
        unfold obj_get in Hps. rewrite obj_lookup_set_eq in Hps.
        inversion Hps. subst ps'. apply in_map_iff in Hp.
        destruct Hp as [p [<- _]]. apply sanitizePart_no_thoughtSignature.
      + rewrite with_parts_other in Hps by (right; exact T).
        apply prop_parts_array in Hps. congruence. }
  split; [exact Hown|].
  destruct p'; try reflexivity.
  cbn [prop ownEnumerable] in *. unfold obj_get. rewrite Hown. reflexivity.
Qed.

Lemma extracted_parts_without_thoughtSignature_witness :
  prop (VObj [("text", VStr "a")]) "thoughtSignature" = VUndefined.
Proof.
  apply (extracted_parts_without_thoughtSignature
           (VObj [("candidates", VArr [example_candidate])])
           (VObj [("candidates",
                   VArr [VObj [("content",
                                VObj [("parts",
                                       VArr [VObj [("text", VStr "a")]])]);
                               ("index", VNum 0)]])])
           [VObj [("content",
                   VObj [("parts", VArr [VObj [("text", VStr "a")]])]);
                  ("index", VNum 0)]]
           [VObj [("text", VStr "a")]]
           (VObj [("content",
                   VObj [("parts", VArr [VObj [("text", VStr "a")]])]);
                  ("index", VNum 0)])
           (VObj [("text", VStr "a")])
           eq_refl eq_refl (or_introl eq_refl) eq_refl (or_introl eq_refl)).
Defined.

(** X7.  The response side never throws.  [sanitizeCandidate] and
    [extractGeminiResponse] return for every input, since each property read
    they make is guarded; and [extractGeminiResponse] returns its argument
    itself whenever that is not a plain object: [null], [undefined], a
    primitive or an array. *)
Theorem response_side_never_throws (v index : value) :
  (exists c, sanitizeCandidate v index = Ok c) /\
  (exists g, extractGeminiResponse v = Ok g) /\
  ((forall o, v <> VObj o) -> extractGeminiResponse v = Ok v).
Proof.
  split; [apply sanitizeCandidate_total|].
  split; [apply extractGeminiResponse_total|].
  intros Hv. rewrite extractGeminiResponse_unwrap.
  assert (Hu : unwrap v = v).
  { apply unwrap_fixed. destruct v; try reflexivity.
    exfalso. apply (Hv o). reflexivity. }
  rewrite Hu. destruct v; try reflexivity.
  exfalso. apply (Hv o). reflexivity.
Qed.

Lemma response_side_never_throws_witness :
  extractGeminiResponse VUndefined = Ok VUndefined /\
  extractGeminiResponse (VArr [VObj [("candidates", VArr [])]]) =
    Ok (VArr [VObj [("candidates", VArr [])]]).
Proof.
  split.
  - apply (response_side_never_throws VUndefined VNull). discriminate.
  - apply (response_side_never_throws
             (VArr [VObj [("candidates", VArr [])]]) VNull).
    discriminate.
Defined.

(** X8.  [extractGeminiResponse] is idempotent exactly on the inputs whose
    result has no truthy [response] left: then extracting from the result
    gives the result again, and otherwise it gives something else (the
    result is unwrapped once more). *)
Theorem extractGeminiResponse_idempotent (r : value) :
  exists g,
    extractGeminiResponse r = Ok g /\
    (truthy (prop g "response") = false -> extractGeminiResponse g = Ok g) /\
    (truthy (prop g "response") = true -> extractGeminiResponse g <> Ok g).
Proof.
  destruct (extractGeminiResponse_total r) as [g Hg]. exists g.
  split; [exact Hg|]. split.
  - apply (extractGeminiResponse_again r g Hg).
  - intros Ht E. apply (extractGeminiResponse_unwraps g g Ht E). reflexivity.
Qed.

Lemma extractGeminiResponse_idempotent_witness :
  extractGeminiResponse
    (VObj [("candidates", VArr [VObj [("index", VNum 0)]])]) =
  Ok (VObj [("candidates", VArr [VObj [("index", VNum 0)]])]) /\
  extractGeminiResponse null_envelope = Ok null_envelope.
Proof.
  split.
  - destruct (extractGeminiResponse_idempotent
                (VObj [("response",
                        VObj [("candidates", VArr [VObj []])])]))
      as [g [H1 [H2 _]]].
    vm_compute in H1. inversion H1. subst g. apply H2. reflexivity.
  - destruct (extractGeminiResponse_idempotent null_envelope)
      as [g [H1 [H2 _]]].
    vm_compute in H1. inversion H1. subst g. apply H2. reflexivity.
Defined.

(** Well-formedness of a value that is written out. *)
Ltac wf_keys :=
  unfold canonical; cbn [keys map fst ordered_keys];
  repeat split; try (simpl; intuition discriminate);
  repeat (constructor; try reflexivity).

Ltac wf_value :=
  lazymatch goal with
  | |- json_wf (VArr _) => apply wf_arr; wf_value
  | |- json_wf (VObj _) => apply wf_obj; [wf_keys|wf_value]
  | |- json_wf _ => constructor
  | |- Forall _ [] => apply Forall_nil
  | |- Forall _ (_ :: _) =>
      apply Forall_cons; [cbn [snd]; wf_value|wf_value]
  end.

(** X9.  [extractGeminiResponse] keeps values in the shape of JSON data:
    when its argument has no [undefined] inside and every object in it has
    its properties in property order, so has its result; the unwrap, the
    added [index] and the rebuilt [parts] bring in nothing else. *)
Theorem extractGeminiResponse_well_formed (r g : value) :
  json_wf r -> extractGeminiResponse r = Ok g -> json_wf g.
Proof.
  intros Hr. rewrite extractGeminiResponse_unwrap.
  pose proof (json_wf_unwrap r Hr) as Hp.
  destruct (prop (unwrap r) "candidates") as [| | | | |cs|] eqn:P;
    try (intros E; inversion E; subst; exact Hp).
  unfold sanitizeCandidates.
  destruct (mapi_from _ 0%Z cs) as [cs'|] eqn:Em; [|discriminate].
  cbn [bind]. intros E. inversion E. constructor.
  - apply canonical_set, canonical_spread.
  - apply values_wf_set; [|apply values_wf_spread; exact Hp].
    constructor. apply (json_wf_sanitizeCandidates cs cs' 0); [|exact Em].
    destruct (json_wf_prop _ "candidates" Hp) as [Hw|Hu];
      [|rewrite Hu in P; discriminate].
    rewrite P in Hw. inversion Hw. assumption.
Qed.

Lemma extractGeminiResponse_well_formed_witness :
  json_wf spec_stream_extracted.
Proof.
  apply (extractGeminiResponse_well_formed spec_stream_payload).
  - unfold spec_stream_payload. wf_value.
  - reflexivity.
Defined.

(** In a value in the shape of JSON data a property that reads as
    [undefined] is absent. *)
Lemma values_wf_absent (o : obj) (k : string) :
  values_wf o -> obj_get o k = VUndefined -> obj_lookup k o = None.
Proof.
  intros Ho. unfold obj_get.
  destruct (obj_lookup k o) as [v|] eqn:L; [|reflexivity].
  intros ->. apply values_wf_lookup in L; [|exact Ho]. inversion L.
Qed.

Lemma obj_get_lookup (o : obj) (k : string) (v : value) :
  v <> VUndefined -> obj_get o k = v -> obj_lookup k o = Some v.
Proof.
  unfold obj_get. destruct (obj_lookup k o); intros Hv H; congruence.
Qed.

Lemma prop_parts_object (v : value) (ps : list value) :
  prop v "parts" = VArr ps -> exists o, v = VObj o.
Proof. destruct v; try discriminate. eauto. Qed.

Lemma map_fixed {A : Type} (f : A -> A) (l : list A) :
  map f l = l <-> forall x, In x l -> f x = x.
Proof.
  induction l as [|a l IH]; simpl.
  - split; [intros _ x []|reflexivity].
  - split.
    + intros H. inversion H as [[H1 H2]]. rewrite H1, H2.
      intros x [<-|Hin]; [exact H1|]. apply IH; assumption.
    + intros H. rewrite (H a) by auto. f_equal. apply IH. auto.
Qed.

(** The parts that [sanitizePart] leaves as they are. *)
Lemma sanitizePart_fixed (p : value) :
  json_wf p ->
  (sanitizePart p = p <->
   isArray p = false /\ prop p "thoughtSignature" = VUndefined).
Proof.
  intros Hwf. destruct Hwf as [|b|n|s|l Hl|o Hc Ho];
    try (split; [intros _; split; reflexivity|intros _];
         apply sanitizePart_passthrough; unfold is_object;
         apply andb_false_r).
  - split; [split|]; reflexivity.
  - split; [discriminate|intros [H _]; discriminate].
  - rewrite sanitizePart_object by reflexivity. split.
    + intros H. split; [reflexivity|]. inversion H as [H1].
      cbn [prop]. unfold obj_get. rewrite <- H1 at 1.
      rewrite H1, <- H1, obj_lookup_rest_props. reflexivity.
    + intros [_ H]. cbn [prop] in H. f_equal.
      apply rest_props_fixed; [exact Hc|].
      apply values_wf_absent; assumption.
Qed.

(** X10.  The fixed points of [sanitizeCandidate] among the values in the
    shape of JSON data: a
    candidate comes back unchanged exactly when it is not an object, or is
    an object other than an array that has an [index] of its own and, if its
    [content.parts] is an array, no array and no [thoughtSignature] among
    the parts. *)
Theorem sanitizeCandidate_fixed_points (c index : value) :
  json_wf c ->
  (sanitizeCandidate c index = Ok c <->
   is_object c = false \/
   (isArray c = false /\
    is_undefined (prop c "index") = false /\
    forall ps p,
      prop (prop c "content") "parts" = VArr ps -> In p ps ->
      isArray p = false /\ prop p "thoughtSignature" = VUndefined)).
Proof.
  intros Hwf. destruct Hwf as [|b|n|s|l Hl|o Hc Ho];
    try (split; [intros _; left|intros _; apply sanitizeCandidate_passthrough];
         unfold is_object; apply andb_false_r).
  - split; [left|]; reflexivity.
  - rewrite sanitizeCandidate_object by reflexivity.
    split; [discriminate|].
    intros [H|[H _]]; discriminate.
  - rewrite sanitizeCandidate_object by reflexivity.
    rewrite (spread_canonical o Hc). cbn [prop isArray]. split.
    + intros H.
      assert (H1 : with_parts (with_index index o) = o) by congruence.
      clear H. right. split; [reflexivity|].
      assert (Hi : is_undefined (obj_get o "index") = false).
      { destruct (is_undefined (obj_get o "index")) eqn:E; [|reflexivity].
        assert (Hn : obj_lookup "index" o = None).
        { apply values_wf_absent; [exact Ho|].
          destruct (obj_get o "index"); try discriminate. reflexivity. }
        rewrite <- H1 in Hn.
        rewrite obj_lookup_with_parts in Hn by discriminate.
        unfold with_index in Hn. rewrite E in Hn.
        rewrite obj_lookup_set_eq in Hn. discriminate. }
      split; [exact Hi|].
      rewrite (with_index_fixed index o Hi) in H1.
      intros ps p Hps Hin.
      rewrite (with_parts_array o ps Hps (prop_parts_array _ _ Hps)) in H1.
      destruct (prop_parts_object _ _ Hps) as [co Eco].
      assert (Hl : obj_lookup "content" o = Some (VObj co)).
      { apply obj_get_lookup; [discriminate|exact Eco]. }
      pose proof (values_wf_lookup _ _ _ Ho Hl) as Hco.
      rewrite Eco in Hps. cbn [prop] in Hps.
      assert (Hlp : obj_lookup "parts" co = Some (VArr ps)).
      { apply obj_get_lookup; [discriminate|exact Hps]. }
      inversion Hco as [| | | | |co' Hcc Hcv]. subst co'.
      pose proof (values_wf_lookup _ _ _ Hcv Hlp) as Hwps.
      inversion Hwps as [| | | |ps' Hfa|]. subst ps'.
      rewrite Forall_forall in Hfa.
      apply sanitizePart_fixed; [apply Hfa; exact Hin|].
      assert (Hm : map sanitizePart ps = ps).
      { pose proof (obj_lookup_set_eq "content"
                      (VObj (obj_set "parts" (VArr (map sanitizePart ps))
                               (spread [] (obj_get o "content")))) o) as E.
        rewrite H1, Hl in E.
        assert (E1 : co =
                     obj_set "parts" (VArr (map sanitizePart ps))
                       (spread [] (obj_get o "content"))) by congruence.
        pose proof (obj_lookup_set_eq "parts" (VArr (map sanitizePart ps))
                      (spread [] (obj_get o "content"))) as E2.
        rewrite <- E1, Hlp in E2. congruence. }
      apply (proj1 (map_fixed sanitizePart ps) Hm). exact Hin.
    + intros [H|[_ [Hi Hp]]]; [discriminate|].
      rewrite (with_index_fixed index o Hi). do 2 f_equal.
      destruct (prop (obj_get o "content") "parts") as [| | | | |ps|] eqn:Hps;
        try (apply with_parts_other; left; rewrite Hps; reflexivity).
      rewrite (with_parts_array o ps Hps (prop_parts_array _ _ Hps)).
      destruct (prop_parts_object _ _ Hps) as [co Eco].
      assert (Hl : obj_lookup "content" o = Some (VObj co)).
      { apply obj_get_lookup; [discriminate|exact Eco]. }
      pose proof (values_wf_lookup _ _ _ Ho Hl) as Hco.
      rewrite Eco in *. cbn [prop] in Hps.
      assert (Hlp : obj_lookup "parts" co = Some (VArr ps)).
      { apply obj_get_lookup; [discriminate|exact Hps]. }
      inversion Hco as [| | | | |co' Hcc Hcv]. subst co'.
      pose proof (values_wf_lookup _ _ _ Hcv Hlp) as Hwps.
      inversion Hwps as [| | | |ps' Hfa|]. subst ps'.
      rewrite Forall_forall in Hfa.
      assert (Hm : map sanitizePart ps = ps).
      { apply map_fixed. intros p Hin.
        apply sanitizePart_fixed; [apply Hfa; exact Hin|].
        apply (Hp ps p eq_refl Hin). }
      rewrite Hm, (spread_canonical co Hcc).
      rewrite (obj_set_same "parts" (VArr ps) co Hcc Hlp).
      apply obj_set_same; assumption.
Qed.

Lemma sanitizeCandidate_fixed_points_witness :
  sanitizeCandidate example_sanitized (VNum 7) = Ok example_sanitized.
Proof.
  apply (sanitizeCandidate_fixed_points example_sanitized (VNum 7)).
  - unfold example_sanitized. wf_value.
  - right. split; [reflexivity|]. split; [reflexivity|].
    intros ps p H. vm_compute in H. inversion H. subst ps.
    intros [<-|[]]. split; reflexivity.
Defined.

(** ** The streaming side *)

Section StreamProperties.

Variable JSON_parse : string -> result value.
Variable JSON_stringify : value -> result (option string).

Local Abbreviation transform :=
  (transformStreamLine JSON_parse JSON_stringify).

(** X11.  [transformStreamLine] keeps the kind of a line and rewrites
    payloads only: the result begins with ["data: "] exactly when the line
    does, and a result other than the line itself comes from a data line
    whose payload parsed to a value [d] other than [null], and is ["data: "]
    followed by the text that [JSON.stringify] gives the payload extracted
    from [d]. *)
Theorem transformStreamLine_payload (line out : string) :
  transform line = Ok out ->
  startsWith out "data: " = startsWith line "data: " /\
  (out <> line ->
   exists d g text,
     startsWith line "data: " = true /\
     JSON_parse (slice 6 line) = Ok d /\ nullish d = false /\
     extractGeminiResponse d = Ok g /\
     JSON_stringify g = Ok text /\
     out = ("data: " ++ template_text text)%string).
Proof.
  intros H.
  destruct (transformStreamLine_cases JSON_parse JSON_stringify line)
    as [[Hl _]|[d [g [text [Hs [Hp [Hd [Hg [Ht Hl]]]]]]]]].
  - assert (Eo : out = line) by congruence.
    rewrite Eo. split; [reflexivity|]. intros Hne. contradiction.
  - assert (Eo : out = ("data: " ++ template_text text)%string)
      by congruence.
    split; [rewrite Eo, Hs; apply startsWith_data|].
    intros _. exists d, g, text. auto 10.
Qed.

(** X12.  On data lines [transformStreamLine] depends on the parsed payload
    only: for two data lines whose payloads parse to the same value other
    than [null], either [JSON.stringify] prints the extracted payload and
    both give the same result, ["data: "] followed by that text, whatever
    their white space and whichever keys they repeat; or [JSON.stringify]
    throws on it and each line is returned as it is. *)
Theorem transformStreamLine_normalises (l1 l2 : string) (d : value) :
  startsWith l1 "data: " = true -> startsWith l2 "data: " = true ->
  JSON_parse (slice 6 l1) = Ok d -> JSON_parse (slice 6 l2) = Ok d ->
  nullish d = false ->
  exists g,
    extractGeminiResponse d = Ok g /\
    (forall text,
       JSON_stringify g = Ok text ->
       transform l1 = Ok ("data: " ++ template_text text)%string /\
       transform l2 = transform l1) /\
    (forall e,
       JSON_stringify g = Throw e ->
       transform l1 = Ok l1 /\ transform l2 = Ok l2).
Proof.
  intros S1 S2 P1 P2 Hd.
  destruct (extractGeminiResponse_total d) as [g Hg]. exists g.
  split; [exact Hg|]. split.
  - intros text Ht.
    rewrite (transformStreamLine_printed _ _ l1 d g text S1 P1 Hd Hg Ht).
    rewrite (transformStreamLine_printed _ _ l2 d g text S2 P2 Hd Hg Ht).
    split; reflexivity.
  - intros e Ht. split.
    + apply (transformStreamLine_unprinted _ _ l1 d g e S1 P1 Hd Hg Ht).
    + apply (transformStreamLine_unprinted _ _ l2 d g e S2 P2 Hd Hg Ht).
Qed.

End StreamProperties.

Lemma transformStreamLine_payload_witness :
  startsWith spec_stream_result "data: " = true /\
  exists d g text,
    example_parse (slice 6 spec_stream_line) = Ok d /\
    extractGeminiResponse d = Ok g /\
    example_stringify g = Ok text /\
    spec_stream_result = ("data: " ++ template_text text)%string.
Proof.
  destruct (transformStreamLine_payload example_parse example_stringify
              spec_stream_line spec_stream_result eq_refl) as [H1 H2].
  split; [exact H1|].
  destruct H2 as [d [g [text [_ [Hp [_ [Hg [Ht Ho]]]]]]]]; [discriminate|].
  exists d, g, text. auto.
Defined.

Lemma transformStreamLine_normalises_witness :
  transformStreamLine example_parse example_stringify spaced_line =
    Ok dense_line /\
  transformStreamLine example_parse example_stringify dense_line =
    transformStreamLine example_parse example_stringify spaced_line.
Proof.
  destruct (transformStreamLine_normalises example_parse example_stringify
              spaced_line dense_line
              (VObj [("candidates", VArr []); ("x", VNum 2)])
              eq_refl eq_refl eq_refl eq_refl eq_refl) as [g [Hg [H _]]].
  vm_compute in Hg. inversion Hg. subst g.
  apply (H (Some (slice 6 dense_line))). reflexivity.
Defined.

(** ** The request translator, further *)

Lemma if_Ok {A : Type} (b : bool) (x y : A) :
  (if b then Ok x else Ok y) = Ok (if b then x else y).
Proof. destruct b; reflexivity. Qed.

Lemma if_same {A : Type} (b : bool) (x : A) : (if b then x else x) = x.
Proof. destruct b; reflexivity. Qed.

Ltac throws := split; [discriminate|reflexivity].
Ltac returns := split; [intros _; eexists; reflexivity|discriminate].
Ltac step b :=
  destruct b; cbn [bind negb andb orb]; [try throws; try returns|].
Ltac instruction :=
  match goal with
  | |- context [truthy (prop ?req "systemInstruction")] =>
      let Ts := fresh "Ts" in
      destruct (truthy (prop req "systemInstruction")) eqn:Ts;
      cbn [bind negb andb orb];
      [rewrite (truthy_not_nullish _ Ts); cbn [bind];
       destruct (truthy (prop (prop req "systemInstruction") "parts"))
      |match goal with
       | |- context [truthy (prop ?config "systemInstruction")] =>
           destruct (truthy (prop config "systemInstruction"))
       end];
      cbn [bind negb andb orb];
      match goal with
      | |- context [nullish ?token] => step (nullish token); returns
      end
  end.

Section RequestProperties.

Variable config : value.
Variable IdState : Type.
Variable generateRequestId : IdState -> value * IdState.

Local Abbreviation translate :=
  (convertGeminiToAntigravity config IdState generateRequestId).

(** The translator returns on the translatable calls and throws a
    [TypeError] on the others. *)
Lemma translate_cases (model req token : value) (ids : IdState) :
  (translatable config req token = true ->
   exists r, translate model req token ids = Ok r) /\
  (translatable config req token = false ->
   translate model req token ids = Throw TypeError).
Proof.
  unfold translatable, reads_defaults, reads_instruction,
    convertGeminiToAntigravity, resolve_field, config_default, coalesce,
    getProp.
  cbn [existsb].
  step (nullish req). fold (incoming_config req).
  step (nullish (incoming_config req)).
  destruct (generateRequestId ids) as [rid ids1].
  rewrite (if_Ok (nullish (prop (incoming_config req) "candidateCount"))).
  destruct (nullish config || nullish (prop config "defaults")) eqn:Bad.
  - (* the defaults cannot be read *)
    assert (Hbad : forall n : string,
              bind (if nullish config then Throw TypeError
                    else Ok (prop config "defaults"))
                (fun defaults =>
                   if nullish defaults then Throw TypeError
                   else Ok (prop defaults n)) = Throw TypeError).
    { intros n. destruct (nullish config); [reflexivity|].
      cbn [bind]. simpl in Bad. rewrite Bad. reflexivity. }
    rewrite !Hbad.
    assert (Hneg : negb (nullish config) &&
                   negb (nullish (prop config "defaults")) = false).
    { rewrite <- negb_orb, Bad. reflexivity. }
    rewrite Hneg.
    step (nullish (prop (incoming_config req) "topP")).
    step (nullish (prop (incoming_config req) "topK")).
    step (nullish (prop (incoming_config req) "temperature")).
    step (nullish (prop (incoming_config req) "maxOutputTokens")).
    destruct (nullish config) eqn:Hc; cbn [bind negb andb orb].
    + destruct (truthy (prop req "systemInstruction")) eqn:Ts;
        cbn [bind negb andb orb]; [|throws].
      rewrite (truthy_not_nullish _ Ts). cbn [bind].
      destruct (truthy (prop (prop req "systemInstruction") "parts"));
        cbn [bind negb andb orb]; [|throws].
      step (nullish token). returns.
    + rewrite if_same. instruction.
  - apply orb_false_elim in Bad. destruct Bad as [Hc Hd].
    rewrite Hc, Hd. cbn [bind negb andb orb]. rewrite Hd.
    rewrite !if_Ok, !if_same. cbn [bind negb andb orb]. instruction.
Qed.

Lemma translate_eq (model req token : value) (ids : IdState) :
  translate model req token ids =
  if translatable config req token
  then Ok (internal_request config (fst (generateRequestId ids)) model req
             token,
           snd (generateRequestId ids))
  else Throw TypeError.
Proof.
  destruct (translate_cases model req token ids) as [Hyes Hno].
  destruct (translatable config req token); [|apply Hno; reflexivity].
  destruct (Hyes eq_refl) as [[out ids'] Hr]. rewrite Hr.
  apply convert_result in Hr. destruct Hr as [-> [-> _]]. reflexivity.
Qed.

(** X13.  The translator throws exactly when it reads a member of [null] or
    [undefined], and then a [TypeError]: the request, the token or the
    incoming [generationConfig] is one, or a configured value that the
    request leaves open has to be read from a missing [config] or
    [config.defaults].  On every other call it returns the internal request
    after one call of the identifier supply.  The accepted calls are among
    those. *)
Theorem translate_defined_exactly (model req token : value) (ids : IdState) :
  (translatable config req token = true ->
   translate model req token ids =
   Ok (internal_request config (fst (generateRequestId ids)) model req token,
       snd (generateRequestId ids))) /\
  (translatable config req token = false ->
   translate model req token ids = Throw TypeError) /\
  (accepted config req token -> translatable config req token = true).
Proof.
  split; [|split].
  - intros Ht. rewrite translate_eq, Ht. reflexivity.
  - intros Ht. rewrite translate_eq, Ht. reflexivity.
  - intros [Hr [Ht [Hg [Hc Hd]]]]. unfold translatable.
    rewrite Hr, Ht, Hc, Hd, (nullish_incoming_config req Hg).
    cbn [negb andb]. rewrite !if_same. reflexivity.
Qed.

(** X14.  The internal [request] takes its [sessionId] from the request body
    when the body has a [sessionId] of its own, whatever its value, and from
    the token otherwise: the spread of the remaining request fields comes
    last.  Beside [contents], [systemInstruction], [generationConfig] and
    [sessionId], [request] has the remaining fields of the body and no
    others. *)
Theorem request_sessionId
  (model req token out : value) (ids ids' : IdState) :
  translate model req token ids = Ok (out, ids') ->
  exists inner,
    prop out "request" = VObj inner /\
    obj_lookup "sessionId" inner =
      Some (match obj_lookup "sessionId" (ownEnumerable req) with
            | Some v => v
            | None => prop token "sessionId"
            end) /\
    (forall k,
       obj_lookup k inner <> None ->
       In k ["contents"; "systemInstruction"; "generationConfig";
             "sessionId"] \/
       (~ In k pattern_keys /\ obj_lookup k (ownEnumerable req) <> None)).
Proof.
  intros H. apply convert_result in H. destruct H as [-> _].
  exists (inner_request config req token).
  split; [reflexivity|]. unfold inner_request, spread. split.
  - rewrite obj_lookup_set_all. cbn [ownEnumerable].
    rewrite obj_lookup_rest_props.
    change (not_excluded pattern_keys "sessionId") with true. cbv iota.
    destruct (obj_lookup "sessionId" (ownEnumerable req)); reflexivity.
  - intros k. rewrite obj_lookup_set_all. cbn [ownEnumerable].
    rewrite obj_lookup_rest_props.
    destruct (not_excluded pattern_keys k) eqn:E.
    + destruct (obj_lookup k (ownEnumerable req)) eqn:L.
      * intros _. right. split; [|discriminate].
        intros Hin. unfold not_excluded in E.
        apply negb_true_iff in E.
        assert (Ex : existsb (String.eqb k) pattern_keys = true).
        { apply existsb_exists. exists k. split; [exact Hin|].
          apply String.eqb_refl. }
        congruence.
      * intros Hk. left. cbn [obj_lookup fst snd] in Hk.
        cbn [In].
        destruct (k =? "sessionId") eqn:E4;
          [apply String.eqb_eq in E4; subst k; auto 10|].
        destruct (k =? "generationConfig") eqn:E3;
          [apply String.eqb_eq in E3; subst k; auto 10|].
        destruct (k =? "systemInstruction") eqn:E2;
          [apply String.eqb_eq in E2; subst k; auto 10|].
        destruct (k =? "contents") eqn:E1;
          [apply String.eqb_eq in E1; subst k; auto 10|].
        contradiction.
    + intros Hk. left. cbn [obj_lookup fst snd] in Hk.
      cbn [In].
      destruct (k =? "sessionId") eqn:E4;
        [apply String.eqb_eq in E4; subst k; auto 10|].
      destruct (k =? "generationConfig") eqn:E3;
        [apply String.eqb_eq in E3; subst k; auto 10|].
      destruct (k =? "systemInstruction") eqn:E2;
        [apply String.eqb_eq in E2; subst k; auto 10|].
      destruct (k =? "contents") eqn:E1;
        [apply String.eqb_eq in E1; subst k; auto 10|].
      contradiction.
Qed.

(** X15.  The merged [generationConfig] forwards every field of the incoming
    one that is not among the five named fields, with its value, and has no
    field beside the five and those of the incoming one. *)
Theorem merged_generationConfig_other_fields
  (model req token out : value) (ids ids' : IdState) :
  translate model req token ids = Ok (out, ids') ->
  exists merged,
    prop (prop out "request") "generationConfig" = VObj merged /\
    (forall k, ~ In k named_fields ->
       obj_lookup k merged =
       obj_lookup k (ownEnumerable (incoming_config req))) /\
    (forall k,
       obj_lookup k merged <> None <->
       In k named_fields \/
       obj_lookup k (ownEnumerable (incoming_config req)) <> None).
Proof.
  intros H. apply convert_result in H. destruct H as [-> _].
  exists (merged_config config (incoming_config req)).
  split; [apply prop_request_generationConfig|].
  assert (Hother : forall k, ~ In k named_fields ->
            obj_lookup k (merged_config config (incoming_config req)) =
            obj_lookup k (ownEnumerable (incoming_config req))).
  { intros k Hk. unfold merged_config, spread. rewrite obj_lookup_set_all.
    destruct (obj_lookup k (ownEnumerable (incoming_config req)));
      [reflexivity|].
    cbn [map named_fields obj_lookup fst snd].
    cbn [In named_fields] in Hk.
    destruct (k =? "candidateCount") eqn:E5;
      [apply String.eqb_eq in E5; subst k; exfalso; apply Hk; auto 10|].
    destruct (k =? "maxOutputTokens") eqn:E4;
      [apply String.eqb_eq in E4; subst k; exfalso; apply Hk; auto 10|].
    destruct (k =? "temperature") eqn:E3;
      [apply String.eqb_eq in E3; subst k; exfalso; apply Hk; auto 10|].
    destruct (k =? "topK") eqn:E2; [apply String.eqb_eq in E2; subst k; exfalso; apply Hk; auto 10|].
    destruct (k =? "topP") eqn:E1; [apply String.eqb_eq in E1; subst k; exfalso; apply Hk; auto 10|].
    reflexivity. }
  split; [exact Hother|].
  intros k. destruct (in_dec string_dec k named_fields) as [Hin|Hni].
  - split; [auto|]. intros _.
    rewrite obj_lookup_merged_config by exact Hin.
    destruct (obj_lookup k (ownEnumerable (incoming_config req)));
      discriminate.
  - rewrite (Hother k Hni). tauto.
Qed.


End RequestProperties.

(** X16.  The configuration is read only where the request leaves something
    open: a request that supplies [topP], [topK], [temperature] and
    [maxOutputTokens] and a [systemInstruction] with [parts] is translated
    to the same result, or fails the same way, under every configuration,
    a missing one included. *)
Theorem translate_without_config
  (config1 config2 : value) (IdState : Type)
  (generateRequestId : IdState -> value * IdState)
  (model req token : value) (ids : IdState) :
  reads_defaults req = false -> reads_instruction req = false ->
  convertGeminiToAntigravity config1 IdState generateRequestId
    model req token ids =
  convertGeminiToAntigravity config2 IdState generateRequestId
    model req token ids.
Proof.
  intros Hd Hi. rewrite !translate_eq.
  unfold translatable. rewrite Hd, Hi.
  destruct (negb (nullish req) && negb (nullish (incoming_config req)) &&
            true && true && negb (nullish token)); [|reflexivity].
  assert (Hf : final_instruction config1 (prop req "systemInstruction") =
               final_instruction config2 (prop req "systemInstruction")).
  { unfold final_instruction. unfold reads_instruction in Hi.
    apply negb_false_iff, andb_prop in Hi. destruct Hi as [-> ->].
    reflexivity. }
  assert (Hm : merged_config config1 (incoming_config req) =
               merged_config config2 (incoming_config req)).
  { unfold reads_defaults in Hd. cbn [existsb] in Hd.
    repeat (apply orb_false_elim in Hd; destruct Hd as [? Hd]).
    unfold merged_config. cbn [map named_fields]. unfold js_coalesce.
    repeat match goal with H : nullish _ = false |- _ =>
             rewrite H; clear H end.
    reflexivity. }
  unfold internal_request, inner_request. rewrite Hf, Hm. reflexivity.
Qed.

Lemma translate_defined_exactly_witness :
  convertGeminiToAntigravity VUndefined nat counter_id (VStr "m")
    (VObj [("generationConfig",
            VObj [("topP", VNum 1); ("topK", VNum 40);
                  ("temperature", VNum 0); ("maxOutputTokens", VNum 64)]);
           ("systemInstruction",
            VObj [("parts", VArr [VObj [("text", VStr "be brief")]])])])
    example_token 0 =
  Ok (internal_request VUndefined (VStr "req-0") (VStr "m")
        (VObj [("generationConfig",
                VObj [("topP", VNum 1); ("topK", VNum 40);
                      ("temperature", VNum 0); ("maxOutputTokens", VNum 64)]);
               ("systemInstruction",
                VObj [("parts", VArr [VObj [("text", VStr "be brief")]])])])
        example_token, 1) /\
  convertGeminiToAntigravity VUndefined nat counter_id (VStr "m")
    example_request example_token 0 = Throw TypeError.
Proof.
  split.
  - apply (translate_defined_exactly VUndefined nat counter_id). reflexivity.
  - apply (translate_defined_exactly VUndefined nat counter_id). reflexivity.
Defined.

Lemma request_sessionId_witness :
  exists inner,
    prop (internal_request example_config (VStr "req-0") (VStr "m")
            (VObj [("sessionId", VStr "mine")]) example_token) "request" =
      VObj inner /\
    obj_lookup "sessionId" inner = Some (VStr "mine").
Proof.
  destruct (request_sessionId example_config nat counter_id (VStr "m")
              (VObj [("sessionId", VStr "mine")]) example_token
              (internal_request example_config (VStr "req-0") (VStr "m")
                 (VObj [("sessionId", VStr "mine")]) example_token)
              0 1 eq_refl) as [inner [H1 [H2 _]]].
  exists inner. split; [exact H1|exact H2].
Defined.

Lemma merged_generationConfig_other_fields_witness :
  exists merged,
    prop (prop (internal_request example_config (VStr "req-0") (VStr "m")
                  (VObj [("generationConfig",
                          VObj [("stopSequences", VArr [VStr "END"])])])
                  example_token) "request") "generationConfig" =
      VObj merged /\
    obj_lookup "stopSequences" merged = Some (VArr [VStr "END"]) /\
    obj_lookup "seed" merged = None.
Proof.
  destruct (merged_generationConfig_other_fields example_config nat
              counter_id (VStr "m")
              (VObj [("generationConfig",
                      VObj [("stopSequences", VArr [VStr "END"])])])
              example_token
              (internal_request example_config (VStr "req-0") (VStr "m")
                 (VObj [("generationConfig",
                         VObj [("stopSequences", VArr [VStr "END"])])])
                 example_token)
              0 1 eq_refl) as [merged [H1 [H2 H3]]].
  exists merged. split; [exact H1|]. split.
  - rewrite H2; [reflexivity|].
    simpl. intros [H|[H|[H|[H|[H|[]]]]]]; discriminate.
  - rewrite H2; [reflexivity|].
    simpl. intros [H|[H|[H|[H|[H|[]]]]]]; discriminate.
Defined.

Lemma translate_without_config_witness :
  convertGeminiToAntigravity VUndefined nat counter_id (VStr "m")
    (VObj [("generationConfig",
            VObj [("topP", VNum 1); ("topK", VNum 40);
                  ("temperature", VNum 0); ("maxOutputTokens", VNum 64)]);
           ("systemInstruction",
            VObj [("parts", VArr [VObj [("text", VStr "be brief")]])])])
    example_token 0 =
  convertGeminiToAntigravity example_config nat counter_id (VStr "m")
    (VObj [("generationConfig",
            VObj [("topP", VNum 1); ("topK", VNum 40);
                  ("temperature", VNum 0); ("maxOutputTokens", VNum 64)]);
           ("systemInstruction",
            VObj [("parts", VArr [VObj [("text", VStr "be brief")]])])])
    example_token 0.
Proof.
  apply (translate_without_config VUndefined example_config nat counter_id);
    reflexivity.
Defined.
